(** * A shallow embedding of [simple_pdf_converter.py]

    The development follows the converter class [SimplePDFConverter]:
    the table quality filter, the line tests, the paragraph loop of
    [process_text_content], the document builder and the batch driver.

    Python values are modelled as follows.
    - A [str] is a list of Unicode code points ([pystr]).
    - The character tables of the interpreter ([str.isupper], [str.lower],
      [str.isspace], ...) are a parameter [Unicode] of every definition;
      [basic_latin] is a concrete table, exact on U+0000..U+007F and on the
      two list glyphs U+2022 and U+25CB, used for the literal examples.
    - An exception is a value of [PyExc]; code that may raise lives in the
      error monad [Exc].
    - A [float] is a binary64 number [mant * 2 ^ expo]; [int / int] is the
      correctly rounded quotient.
    - A python-docx document is the list of its body blocks; paragraph and
      table objects are referred to by their position in that list.  The
      operations of the document library and of the PDF library are taken
      as they are documented: the former always succeed, except [save],
      the latter may fail as a whole.
    - Printing, logging, the fonts set by [setup_document_styles] and the
      comment written to the document properties are left out. *)

From Stdlib Require Import Ascii String.
From Stdlib Require Import List ZArith NArith QArith Bool Lia Sorted.
Import ListNotations.
Close Scope Q_scope.

Set Implicit Arguments.

(** ** Exceptions *)

Inductive PyExc : Type :=
| IndexError
| ZeroDivisionError.

Definition Exc (A : Type) : Type := (PyExc + A)%type.

Definition ret {A} (x : A) : Exc A := inr x.
Definition raise {A} (e : PyExc) : Exc A := inl e.
Definition bind {A B} (c : Exc A) (k : A -> Exc B) : Exc B :=
  match c with
  | inl e => inl e
  | inr x => k x
  end.

Declare Scope exc_scope.
Delimit Scope exc_scope with exc.
Notation "x <- c ;; k" := (bind c (fun x => k))
  (at level 61, c at next level, right associativity) : exc_scope.
Open Scope exc_scope.

(** [a and b], [a or b]: the right operand is evaluated only when the left
    one does not decide the result. *)
Definition andE (a b : Exc bool) : Exc bool :=
  x <- a ;; if x then b else ret false.
Definition orE (a b : Exc bool) : Exc bool :=
  x <- a ;; if x then ret true else b.

Infix "&&&" := andE (at level 40, left associativity) : exc_scope.
Infix "|||" := orE (at level 50, left associativity) : exc_scope.

(** [returns c]: the computation finishes without raising. *)
Definition returns {A} (c : Exc A) : Prop := exists x, c = ret x.

(** A [for] loop whose body may raise. *)
Fixpoint forE {A S} (body : S -> A -> Exc S) (xs : list A) (s : S) : Exc S :=
  match xs with
  | [] => ret s
  | x :: rest => s' <- body s x ;; forE body rest s'
  end.

(** ** Strings *)

Definition pychar : Type := N.
Definition pystr : Type := list pychar.

(** An ASCII literal as a [str]. *)
Definition lit (s : string) : pystr :=
  map N_of_ascii (list_ascii_of_string s).

Definition chr_eqb (a b : pychar) : bool := N.eqb a b.

Fixpoint str_eqb (a b : pystr) : bool :=
  match a, b with
  | [], [] => true
  | x :: a', y :: b' => chr_eqb x y && str_eqb a' b'
  | _, _ => false
  end.

(** Truth value of a string: non-empty. *)
Definition truthy {A} (s : list A) : bool :=
  match s with
  | [] => false
  | _ :: _ => true
  end.

(** [s.startswith(p)] *)
Fixpoint startswith (s p : pystr) : bool :=
  match p, s with
  | [], _ => true
  | _ :: _, [] => false
  | y :: p', x :: s' => chr_eqb x y && startswith s' p'
  end.

(** [s.endswith(p)] *)
Definition endswith (s p : pystr) : bool := startswith (rev s) (rev p).

(** [p in s] *)
Fixpoint contains (s p : pystr) : bool :=
  startswith s p ||
  match s with
  | [] => false
  | _ :: s' => contains s' p
  end.

(** [s[0]] *)
Definition index0 (s : pystr) : Exc pychar :=
  match s with
  | [] => raise IndexError
  | c :: _ => ret c
  end.

(** [s.split(sep)] for a one-character separator. *)
Fixpoint split_on (sep : pychar) (s : pystr) : list pystr :=
  match s with
  | [] => [[]]
  | c :: r =>
      if chr_eqb c sep then [] :: split_on sep r
      else match split_on sep r with
           | h :: t => (c :: h) :: t
           | [] => [[c]]
           end
  end.

(** ** Character tables *)

Record Unicode : Type := {
  isupper_c : pychar -> bool;
  islower_c : pychar -> bool;
  istitle_c : pychar -> bool;
  isdigit_c : pychar -> bool;
  isdecimal_c : pychar -> bool;
  isspace_c : pychar -> bool;
  str_lower : pystr -> pystr
}.

Definition in_range (lo hi c : N) : bool := (lo <=? c)%N && (c <=? hi)%N.

Definition latin_lower_c (c : pychar) : pychar :=
  if in_range 65 90 c then (c + 32)%N else c.

Definition latin_isspace (c : pychar) : bool :=
  in_range 9 13 c || in_range 28 32 c.

Definition basic_latin : Unicode := {|
  isupper_c := in_range 65 90;
  islower_c := in_range 97 122;
  istitle_c := fun _ => false;
  isdigit_c := in_range 48 57;
  isdecimal_c := in_range 48 57;
  isspace_c := latin_isspace;
  str_lower := map latin_lower_c
|}.

Section Strings.

Variable U : Unicode.

(** [s.isupper()]: a one-character string is tested directly; otherwise
    no character is lowercase or titlecase and one is uppercase. *)
Definition str_isupper (s : pystr) : bool :=
  match s with
  | [c] => isupper_c U c
  | _ => forallb (fun c => negb (islower_c U c || istitle_c U c)) s
         && existsb (isupper_c U) s
  end.

(** [s.isdigit()] *)
Definition str_isdigit (s : pystr) : bool :=
  truthy s && forallb (isdigit_c U) s.

Fixpoint lstrip (s : pystr) : pystr :=
  match s with
  | [] => []
  | c :: r => if isspace_c U c then lstrip r else s
  end.

Definition rstrip (s : pystr) : pystr := rev (lstrip (rev s)).

(** [s.strip()] *)
Definition strip (s : pystr) : pystr := rstrip (lstrip s).

(** [any(word in line.lower() for word in words)] *)
Definition any_word_in_lower (words : list pystr) (line : pystr) : bool :=
  existsb (fun word => contains (str_lower U line) word) words.

End Strings.

(** ** Floats *)

(** A non-negative binary64 value [mant * 2 ^ expo]. *)
Record float64 : Type := { mant : Z; expo : Z }.

Definition scale_num (a k : Z) : Z := (a * 2 ^ Z.max k 0)%Z.
Definition scale_den (b k : Z) : Z := (b * 2 ^ Z.max (- k) 0)%Z.

(** The quotient [a / b] of two non-negative integers, [b] positive, rounded
    to the nearest number with a 53-bit significand, ties to even.  This is
    what [int.__truediv__] returns while the quotient stays in the range of
    normal numbers. *)
Definition round_div (a b : N) : float64 :=
  if (a =? 0)%N then {| mant := 0; expo := 0 |}
  else
    let a := Z.of_N a in
    let b := Z.of_N b in
    let k0 := (52 - (Z.log2 a - Z.log2 b))%Z in
    let k := if (2 ^ 52 * scale_den b k0 <=? scale_num a k0)%Z
             then k0 else (k0 + 1)%Z in
    let n := scale_num a k in
    let d := scale_den b k in
    let q := (n / d)%Z in
    let r := (n mod d)%Z in
    let m := if (d <? 2 * r)%Z || ((d =? 2 * r)%Z && Z.odd q)
             then (q + 1)%Z else q in
    {| mant := m; expo := (- k)%Z |}.

(** [a / b] on non-negative [int]s. *)
Definition true_div (a b : N) : Exc float64 :=
  if (b =? 0)%N then raise ZeroDivisionError else ret (round_div a b).

(** [x >= y] *)
Definition float_ge (x y : float64) : bool :=
  let e := Z.min (expo x) (expo y) in
  (mant y * 2 ^ (expo y - e) <=? mant x * 2 ^ (expo x - e))%Z.

(** The literal [0.3]: the double nearest to 3/10. *)
Definition float_0_3 : float64 := round_div 3 10.

(** ** Table quality filter *)

(** A cell of an extracted table: a string, or [None]. *)
Definition cell : Type := option pystr.
Definition RawTable : Type := list (list cell).

Section TableFilter.

Variable U : Unicode.

(** [cell and str(cell).strip()] as a condition. *)
Definition cell_has_content (c : cell) : bool :=
  match c with
  | None => false
  | Some s => truthy s && truthy (strip U s)
  end.

(** One pass of the inner loop; the state is
    [(cells_with_content, total_cells)]. *)
Definition count_cell (acc : N * N) (c : cell) : N * N :=
  let '(cells_with_content, total_cells) := acc in
  let total_cells := (total_cells + 1)%N in
  if cell_has_content c
  then ((cells_with_content + 1)%N, total_cells)
  else (cells_with_content, total_cells).

Definition count_cells (table_data : RawTable) : N * N :=
  fold_left (fun acc row => fold_left count_cell row acc)
            table_data (0%N, 0%N).

Definition has_meaningful_content (table_data : RawTable) : Exc bool :=
  if negb (truthy table_data) then ret false
  else
    let '(cells_with_content, total_cells) := count_cells table_data in
    ret (0 <? total_cells)%N
    &&& (ratio <- true_div cells_with_content total_cells ;;
         ret (float_ge ratio float_0_3)).

End TableFilter.


(** ** The document under construction *)

Inductive Block : Type :=
| Heading (level : nat) (text : pystr)
| ListBullet (text : pystr)
| Paragraph (runs : list pystr)
| Table (grid : list (list pystr)).

Definition Document : Type := list Block.

(** In-place change of the object at position [i]. *)
Fixpoint update_at {A} (i : nat) (f : A -> A) (l : list A) : list A :=
  match l, i with
  | [], _ => []
  | x :: r, O => f x :: r
  | x :: r, S i' => x :: update_at i' f r
  end.

(** [doc.add_heading(text, level)] *)
Definition add_heading (text : pystr) (level : nat) (doc : Document)
  : Document :=
  doc ++ [Heading level text].

(** [doc.add_paragraph(text, style='List Bullet')] *)
Definition add_list_bullet (text : pystr) (doc : Document) : Document :=
  doc ++ [ListBullet text].

(** [doc.add_paragraph()]: the new document and the new paragraph. *)
Definition add_paragraph (doc : Document) : Document * nat :=
  (doc ++ [Paragraph []], length doc).

(** [paragraph.text] *)
Definition paragraph_text (p : nat) (doc : Document) : pystr :=
  match nth_error doc p with
  | Some (Paragraph runs) => concat runs
  | _ => []
  end.

(** [paragraph.add_run(text)] *)
Definition add_run (p : nat) (text : pystr) (doc : Document) : Document :=
  update_at p (fun b => match b with
                        | Paragraph runs => Paragraph (runs ++ [text])
                        | _ => b
                        end) doc.

(** [doc.add_table(rows, cols)]: a grid of empty cells. *)
Definition add_table (rows cols : nat) (doc : Document) : Document * nat :=
  (doc ++ [Table (repeat (repeat [] cols) rows)], length doc).

(** [len(table.rows[i].cells)] *)
Definition row_cells (t i : nat) (doc : Document) : nat :=
  match nth_error doc t with
  | Some (Table grid) => length (nth i grid [])
  | _ => 0
  end.

(** [table.rows[i].cells[j].text = text] *)
Definition set_cell_text (t i j : nat) (text : pystr) (doc : Document)
  : Document :=
  update_at t (fun b => match b with
                        | Table grid =>
                            Table (update_at i (update_at j (fun _ => text))
                                             grid)
                        | _ => b
                        end) doc.

(** [enumerate(xs)] *)
Definition enumerate {A} (xs : list A) : list (nat * A) :=
  combine (seq 0 (length xs)) xs.

(** ** Line tests and the paragraph loop *)

Definition bullet_glyph : pychar := 8226%N.
Definition circle_glyph : pychar := 9675%N.

Definition title_words : list pystr :=
  map lit ["overview"; "introduction"; "benefits"; "features"; "solution";
           "services"; "why"; "how"; "what"; "branded calling";
           "productivity"; "appendix"; "methodology"; "verizon";
           "empowerment"]%string.

Definition subtitle_words : list pystr :=
  map lit ["create"; "project"; "customer"; "workshop"; "deliverables";
           "findings"; "different"; "calling"; "profiles"; "answer";
           "quandary"]%string.

Definition bullet_markers : list pystr :=
  [[bullet_glyph]; lit "-"; lit "*"; [circle_glyph]].

(** [tuple(f'{i}.' for i in range(10))] *)
Definition digit_dot_prefixes : list pystr :=
  map (fun i => [(48 + N.of_nat i)%N; 46%N]) (seq 0 10).

(** The state of the loop in [process_text_content]: the document, and the
    paragraph held in [current_paragraph], if any. *)
Record LoopState : Type := {
  doc : Document;
  current_paragraph : option nat
}.

Section Engine.

Variable U : Unicode.

Definition is_main_title (line : pystr) : Exc bool :=
  if negb (truthy line) || (150 <? length line) then ret false
  else if (length line <? 80) && str_isupper U line then ret true
  else
    b <- ret (length line <? 100)
         &&& ret (negb (endswith line (lit ".")))
         &&& ret (negb (endswith line (lit ",")))
         &&& (c <- index0 line ;; ret (isupper_c U c))
         &&& ret (any_word_in_lower U title_words line) ;;
    if b then ret true else ret false.

Definition is_subtitle (line : pystr) : Exc bool :=
  if negb (truthy line) || (120 <? length line) then ret false
  else
    b <- ret (length line <? 120)
         &&& (c <- index0 line ;; ret (isupper_c U c))
         &&& (ret (endswith line (lit "?"))
              ||| (ret (negb (endswith line (lit "."))
                        && negb (endswith line (lit ",")))
                   &&& ret (any_word_in_lower U subtitle_words line))) ;;
    if b then ret true else ret false.

Definition is_bullet_point (line : pystr) : bool :=
  existsb (startswith line) bullet_markers
  || existsb (startswith line) digit_dot_prefixes.

(** The longest prefix of decimal digits, and what follows it. *)
Fixpoint span_digits (s : pystr) : pystr * pystr :=
  match s with
  | [] => ([], [])
  | c :: r =>
      if isdecimal_c U c
      then let '(ds, rest) := span_digits r in (c :: ds, rest)
      else ([], s)
  end.

(** [re.match(r'^\d+\.', line)], returning what follows the match. *)
Definition match_numbering (line : pystr) : option pystr :=
  match span_digits line with
  | (_ :: _, dot :: rest) => if chr_eqb dot 46%N then Some rest else None
  | _ => None
  end.

Definition clean_bullet_point (line : pystr) : pystr :=
  match find (startswith line) bullet_markers with
  | Some _ => strip U (tl line)
  | None =>
      match match_numbering line with
      | Some rest => lstrip U rest
      | None => line
      end
  end.

Definition ends_sentence (line : pystr) : bool :=
  endswith line (lit ".") || endswith line (lit ":")
  || endswith line (lit "!") || endswith line (lit "?").

(** [text_lines[i + 1].strip() if i + 1 < len(text_lines) else ""] *)
Definition next_line_of (text_lines : list pystr) (i : nat) : pystr :=
  if i + 1 <? length text_lines then strip U (nth (i + 1) text_lines [])
  else [].

(** The condition of the [if] that closes the paragraph.  The conditional
    expression [... if next_line else False] binds weaker than [or], so the
    whole chain of [or]s is its first branch. *)
Definition next_starts_paragraph (next_line : pystr) : Exc bool :=
  if truthy next_line then
    ret (negb (truthy next_line))
    ||| is_main_title next_line
    ||| is_subtitle next_line
    ||| ret (is_bullet_point next_line)
    ||| (c <- index0 next_line ;; ret (isupper_c U c))
  else ret false.

Definition close_paragraph (st : LoopState) : LoopState :=
  {| doc := doc st; current_paragraph := None |}.

(** The branch for normal text. *)
Definition append_text (text_lines : list pystr) (i : nat) (line : pystr)
  (st : LoopState) : Exc LoopState :=
  let '(d, p) := match current_paragraph st with
                 | None => add_paragraph (doc st)
                 | Some p => (doc st, p)
                 end in
  let d := if truthy (paragraph_text p d)
           then add_run p (lit " " ++ line) d
           else add_run p line d in
  let st := {| doc := d; current_paragraph := Some p |} in
  if ends_sentence line then
    let next_line := next_line_of text_lines i in
    c <- next_starts_paragraph next_line ;;
    if c then ret (close_paragraph st) else ret st
  else ret st.

(** One pass of the loop over [enumerate(text_lines)]. *)
Definition process_line (text_lines : list pystr) (st : LoopState)
  (item : nat * pystr) : Exc LoopState :=
  let '(i, line) := item in
  let line := strip U line in
  if negb (truthy line) then
    match current_paragraph st with
    | Some _ => ret (close_paragraph st)
    | None => ret st
    end
  else if str_isdigit U line && (length line <=? 3) then ret st
  else
    t <- is_main_title line ;;
    if t then ret (close_paragraph
                     {| doc := add_heading line 1 (doc st);
                        current_paragraph := current_paragraph st |})
    else
      s <- is_subtitle line ;;
      if s then ret (close_paragraph
                       {| doc := add_heading line 2 (doc st);
                          current_paragraph := current_paragraph st |})
      else if is_bullet_point line then
        let clean_line := clean_bullet_point line in
        ret (close_paragraph
               {| doc := add_list_bullet clean_line (doc st);
                  current_paragraph := current_paragraph st |})
      else append_text text_lines i line st.

(** The loop, with the final value of [current_paragraph]. *)
Definition text_loop (d : Document) (text_lines : list pystr)
  : Exc LoopState :=
  forE (process_line text_lines) (enumerate text_lines)
       {| doc := d; current_paragraph := None |}.

Definition process_text_content (d : Document) (text_lines : list pystr)
  : Exc Document :=
  st <- text_loop d text_lines ;; ret (doc st).

(** *** Tables *)

Definition clean_cell (c : cell) : pystr :=
  match c with
  | Some s => strip U s
  | None => []
  end.

Definition max_len {A} (rows : list (list A)) : nat :=
  fold_left Nat.max (map (@length A) rows) 0.

(** The loops that fill the table [t] of the document. *)
Definition fill_row (t i : nat) (row_data : list pystr) (d : Document)
  : Document :=
  fold_left (fun d item =>
               let '(j, cell_data) := item in
               if j <? row_cells t i d then set_cell_text t i j cell_data d
               else d)
            (enumerate row_data) d.

Definition fill_table (t : nat) (clean_data : list (list pystr))
  (d : Document) : Document :=
  fold_left (fun d item => let '(i, row_data) := item in fill_row t i row_data d)
            (enumerate clean_data) d.

(** None of the operations inside the [try] block raises, so the handler
    is not modelled. *)
Definition add_table_to_document (d : Document) (table_data : RawTable)
  : Document :=
  if negb (truthy table_data) || negb (truthy (hd [] table_data)) then d
  else
    let clean_data := map (map clean_cell) table_data in
    if negb (existsb (existsb (@truthy pychar)) clean_data) then d
    else
      let max_cols := if truthy clean_data then max_len clean_data else 0 in
      if max_cols =? 0 then d
      else
        let '(d, t) := add_table (length clean_data) max_cols d in
        let d := fill_table t clean_data d in
        fst (add_paragraph d).

(** *** Document builder *)

Record PageContent : Type := {
  page_number : nat;
  text : pystr;
  tables : list RawTable
}.

Definition newline : pychar := 10%N.

(** The first loop of [create_word_document]; the state is
    [(all_text_lines, all_tables)]. *)
Definition collect_page (acc : list pystr * list RawTable)
  (page_info : PageContent) : Exc (list pystr * list RawTable) :=
  let '(all_text_lines, all_tables) := acc in
  let page_lines := split_on newline (text page_info) in
  let all_text_lines := all_text_lines ++ page_lines in
  all_tables <- forE (fun all_tables table_data =>
                        keep <- ret (truthy table_data)
                                &&& has_meaningful_content U table_data ;;
                        if keep then ret (all_tables ++ [table_data])
                        else ret all_tables)
                     (tables page_info) all_tables ;;
  ret (all_text_lines, all_tables).

Definition create_word_document (content : list PageContent)
  : Exc Document :=
  acc <- forE collect_page content ([], []) ;;
  let '(all_text_lines, all_tables) := acc in
  d <- process_text_content [] all_text_lines ;;
  ret (fold_left add_table_to_document all_tables d).

End Engine.

(** ** Conversion of files *)

(** A page as the extraction library presents it: [page.extract_text()]
    and [page.extract_tables()]. *)
Record RawPage : Type := {
  extract_text : option pystr;
  extract_tables : list RawTable
}.

Inductive Status : Type := success | failed_status.

(** An entry of [results['files']]. *)
Record FileEntry : Type := {
  pdf : pystr;
  word : option pystr;
  status : Status
}.

(** The dictionary returned by [convert_all]. *)
Record BatchResult : Type := {
  successful : N;
  failed : N;
  files : list FileEntry
}.

Section Orchestrator.

Variable U : Unicode.

(** The file system and the two libraries, seen from the converter.
    - [path_exists w p]: [Path(p).exists()];
    - [pdf_pages w p]: the pages of the PDF at [p], or [None] when opening
      or reading it raises;
    - [save p d w]: [doc.save(p)]; the flag tells whether it returned
      normally, the world is the file system afterwards;
    - [path_stem], [path_join]: [Path(p).stem] and [str(Path(a) / b)]. *)
Variable World : Type.
Variable path_exists : World -> pystr -> bool.
Variable pdf_pages : World -> pystr -> option (list RawPage).
Variable save : pystr -> Document -> World -> bool * World.
Variable path_stem : pystr -> pystr.
Variable path_join : pystr -> pystr -> pystr.
Variable output_folder : pystr.

Definition validate_pdf_files (w : World) (pdf_files : list pystr)
  : list pystr :=
  fold_left (fun valid_pdfs pdf_file =>
               if negb (endswith (str_lower U pdf_file) (lit ".pdf"))
               then valid_pdfs
               else if negb (path_exists w pdf_file) then valid_pdfs
               else valid_pdfs ++ [pdf_file])
            pdf_files [].

Definition extract_text_from_pdf (w : World) (pdf_path : pystr)
  : list PageContent :=
  match pdf_pages w pdf_path with
  | None => []
  | Some pages =>
      fold_left (fun pages_content item =>
                   let '(i, page) := item in
                   match extract_text page with
                   | Some ((_ :: _) as text) =>
                       pages_content ++
                       [{| page_number := i + 1;
                           text := strip U text;
                           tables := extract_tables page |}]
                   | _ => pages_content
                   end)
                (enumerate pages) []
  end.

(** The result is [None] or the path of the written file; every
    exception is caught inside. *)
Definition convert_pdf_to_word (pdf_path : pystr) (w : World)
  : option pystr * World :=
  let content := extract_text_from_pdf w pdf_path in
  if negb (truthy content) then (None, w)
  else
    let pdf_name := path_stem pdf_path in
    let word_filename := pdf_name ++ lit ".docx" in
    let word_path := path_join output_folder word_filename in
    match create_word_document U content with
    | inl _ => (None, w)
    | inr d =>
        let '(ok, w') := save word_path d w in
        if ok then (Some word_path, w') else (None, w')
    end.

(** One pass of the loop of [convert_all]. *)
Definition convert_step (acc : BatchResult * World) (pdf_file : pystr)
  : BatchResult * World :=
  let '(results, w) := acc in
  let '(word_file, w) := convert_pdf_to_word pdf_file w in
  match word_file with
  | Some (_ :: _) =>
      ({| successful := successful results + 1;
          failed := failed results;
          files := files results ++
                   [{| pdf := pdf_file; word := word_file;
                       status := success |}] |}, w)
  | _ =>
      ({| successful := successful results;
          failed := failed results + 1;
          files := files results ++
                   [{| pdf := pdf_file; word := None;
                       status := failed_status |}] |}, w)
  end.

Definition convert_all (pdf_files : list pystr) (w : World)
  : BatchResult * World :=
  let valid_pdfs := validate_pdf_files w pdf_files in
  if negb (truthy valid_pdfs)
  then ({| successful := 0; failed := 0; files := [] |}, w)
  else fold_left convert_step valid_pdfs
                 ({| successful := 0; failed := 0; files := [] |}, w).

End Orchestrator.

(** ** The specification's vocabulary *)

(** *** Table density *)

(** The string form of a cell; an absent cell is empty. *)
Definition cell_text (c : cell) : pystr :=
  match c with
  | Some s => s
  | None => []
  end.

(** A cell is filled when its trimmed string form is non-empty. *)
Definition filled (U : Unicode) (c : cell) : bool :=
  truthy (strip U (cell_text c)).

Definition total_cells (t : RawTable) : N :=
  N.of_nat (length (concat t)).

Definition filled_cells (U : Unicode) (t : RawTable) : N :=
  N.of_nat (length (filter (filled U) (concat t))).

(** [filled / total >= 0.30] over the rationals. *)
Definition density_ok (U : Unicode) (t : RawTable) : Prop :=
  (3 # 10 <= inject_Z (Z.of_N (filled_cells U t))
             / inject_Z (Z.of_N (total_cells t)))%Q.

(** The number of cells up to which the rounded quotient decides the same
    as the exact one. *)
Definition cell_bound : N := (2 ^ 51)%N.

(** *** Line classification *)

Inductive Category : Type :=
| Noise
| MainTitle
| Subtitle
| BulletItem
| PlainText.

Definition Test : Type := pystr -> Exc bool.

(** The first rule whose test the line satisfies gives the category; a
    line that satisfies none is plain text. *)
Fixpoint first_match (rules : list (Test * Category)) (line : pystr)
  : Exc Category :=
  match rules with
  | [] => ret PlainText
  | (test, c) :: rest =>
      b <- test line ;;
      if b then ret c else first_match rest line
  end.

Section Classifier.

Variable U : Unicode.

Definition is_blank : Test := fun line => ret (negb (truthy line)).

Definition is_page_number : Test :=
  fun line => ret (str_isdigit U line && (length line <=? 3)).

(** The priority order of the classifier. *)
Definition priority_rules : list (Test * Category) :=
  [ (is_blank, Noise);
    (is_page_number, Noise);
    (is_main_title U, MainTitle);
    (is_subtitle U, Subtitle);
    ((fun line => ret (is_bullet_point line)), BulletItem) ].

Definition classify (line : pystr) : Exc Category :=
  first_match priority_rules line.

(** What the assembler does with a classified line. *)
Definition perform (c : Category) (text_lines : list pystr) (i : nat)
  (line : pystr) (st : LoopState) : Exc LoopState :=
  match c with
  | Noise =>
      if truthy line then ret st
      else match current_paragraph st with
           | Some _ => ret (close_paragraph st)
           | None => ret st
           end
  | MainTitle =>
      ret {| doc := doc st ++ [Heading 1 line]; current_paragraph := None |}
  | Subtitle =>
      ret {| doc := doc st ++ [Heading 2 line]; current_paragraph := None |}
  | BulletItem =>
      ret {| doc := doc st ++ [ListBullet (clean_bullet_point U line)];
             current_paragraph := None |}
  | PlainText => append_text U text_lines i line st
  end.

(** *** Rendered tables *)

(** An absent cell is rendered as the empty string, a present one
    trimmed. *)
Definition rendered_cell (c : cell) : pystr := strip U (cell_text c).

Definition max_row_length {A} (rows : list (list A)) : nat :=
  list_max (map (@length A) rows).

Definition pad_row (width : nat) (row : list pystr) : list pystr :=
  row ++ repeat [] (width - length row).

(** The table with every row padded to the longest one. *)
Definition padded_table (t : RawTable) : list (list pystr) :=
  map (pad_row (max_row_length t)) (map (map rendered_cell) t).


(** The filter's verdict as a boolean. *)
Definition accepted (t : RawTable) : bool :=
  match has_meaningful_content U t with
  | inr true => true
  | _ => false
  end.

(** The builder renders an accepted table only if its first row has a
    cell. *)
Definition rendered (t : RawTable) : bool :=
  accepted t && truthy (hd [] t).

(** A rendered table and the empty paragraph that follows it. *)
Definition table_blocks (t : RawTable) : list Block :=
  [Table (padded_table t); Paragraph []].

Definition all_lines (content : list PageContent) : list pystr :=
  flat_map (fun page => split_on newline (text page)) content.

Definition all_raw_tables (content : list PageContent) : list RawTable :=
  flat_map tables content.

End Classifier.

Definition is_table (b : Block) : bool :=
  match b with
  | Table _ => true
  | _ => false
  end.

(** A block made from a line of text. *)
Definition is_text_block (b : Block) : bool := negb (is_table b).

(** *** Literal inputs *)

Definition overview_line : pystr := lit "OVERVIEW".
Definition introduction_line : pystr := bullet_glyph :: lit " Introduction".

(** An uppercase letter, [n] lowercase letters and a question mark. *)
Definition question_line (n : nat) : pystr :=
  lit "A" ++ repeat 98%N n ++ lit "?".

Definition sentence_line : pystr := lit "This is a sentence.".
Definition continues_line : pystr := lit "this continues.".
Definition next_starts_line : pystr := lit "Next starts here.".
Definition done_line : pystr := lit "Done.".

(** The state before the first line of a fresh document. *)
Definition fresh_state : LoopState :=
  {| doc := []; current_paragraph := None |}.

(** Every rule of [rules] rejects [line]. *)
Definition all_reject (rules : list (Test * Category)) (line : pystr)
  : Prop :=
  Forall (fun rule => fst rule line = ret false) rules.

(** A document made of text blocks only. *)
Definition text_only (d : Document) : Prop :=
  forallb is_text_block d = true.

(** *** Literal tables and pages *)

(** One filled cell out of six. *)
Definition table_a : RawTable :=
  [[Some (lit "a"); Some []; Some []]; [Some []; Some []; Some []]].

(** Four filled cells out of six. *)
Definition table_b : RawTable :=
  [[Some (lit "a"); Some (lit "b"); Some []];
   [Some (lit "c"); Some []; Some (lit "d")]].





(** *** Batches *)

Section BatchVocabulary.

Variable U : Unicode.
Variable World : Type.
Variable path_exists : World -> pystr -> bool.

(** A path passes validation: its name ends in [.pdf], whatever the case,
    and the file exists. *)
Definition valid_pdf (w : World) (pdf_file : pystr) : bool :=
  endswith (str_lower U pdf_file) (lit ".pdf") && path_exists w pdf_file.

End BatchVocabulary.

Definition success_entry (pdf_file word_file : pystr) : FileEntry :=
  {| pdf := pdf_file; word := Some word_file; status := success |}.

Definition failure_entry (pdf_file : pystr) : FileEntry :=
  {| pdf := pdf_file; word := None; status := failed_status |}.

Definition empty_result : BatchResult :=
  {| successful := 0; failed := 0; files := [] |}.

(** A small world for the examples: the state is the list of files
    written so far; every path exists except [missing.pdf]; [b.pdf] has no
    page with text, every other PDF has one page. *)
Definition demo_world : Type := list (pystr * Document).

Definition demo_exists (w : demo_world) (p : pystr) : bool :=
  negb (str_eqb p (lit "missing.pdf")).

Definition demo_pages (w : demo_world) (p : pystr)
  : option (list RawPage) :=
  if str_eqb p (lit "b.pdf") then Some []
  else Some [{| extract_text := Some (lit "Hello world");
                extract_tables := [] |}].

Definition demo_save (p : pystr) (d : Document) (w : demo_world)
  : bool * demo_world :=
  (true, w ++ [(p, d)]).

Definition demo_stem (p : pystr) : pystr := firstn (length p - 4) p.

Definition demo_join (a b : pystr) : pystr := a ++ lit "/" ++ b.

Definition demo_convert_all (pdf_files : list pystr) (w : demo_world)
  : BatchResult * demo_world :=
  convert_all basic_latin demo_exists demo_pages demo_save demo_stem
    demo_join (lit "out") pdf_files w.


(** ** Further vocabulary *)

(** [sep.join(parts)] *)
Fixpoint join (sep : pystr) (parts : list pystr) : pystr :=
  match parts with
  | [] => []
  | [p] => p
  | p :: rest => p ++ sep ++ join sep rest
  end.

Section Trimming.

Variable U : Unicode.

(** The string is empty or starts with a character that is not white
    space. *)
Definition no_leading_space (s : pystr) : Prop :=
  match s with
  | [] => True
  | c :: _ => isspace_c U c = false
  end.

Definition no_trailing_space (s : pystr) : Prop :=
  no_leading_space (rev s).

(** A non-empty string without white space at either end. *)
Definition trimmed (s : pystr) : Prop :=
  s <> [] /\ no_leading_space s /\ no_trailing_space s.

End Trimming.

(** The table [U] knows the ASCII digits as decimal digits and the full
    stop as none. *)
Definition decimal_table_sane (U : Unicode) : Prop :=
  (forall c, in_range 48 57 c = true -> isdecimal_c U c = true)
  /\ isdecimal_c U 46%N = false.

Definition glyph_markers : list pychar :=
  [bullet_glyph; 45%N; 42%N; circle_glyph].

Definition numbered_line : pystr := lit "3. third  item".
Definition two_digit_line : pystr := lit "10. tenth item".

Section LoopVocabulary.

Variable U : Unicode.

(** A trimmed, non-empty line of the input. *)
Definition input_line (text_lines : list pystr) (l : pystr) : Prop :=
  trimmed U l /\ In l (map (strip U) text_lines).

(** The blocks the paragraph loop can make of [text_lines]: a heading
    carries a trimmed line, a list item a cleaned bullet line, and a
    paragraph has one run per line, every run after the first starting
    with the space that joins it to the text before. *)
Definition block_from_lines (text_lines : list pystr) (b : Block) : Prop :=
  match b with
  | Heading level t =>
      (level = 1 \/ level = 2) /\ input_line text_lines t
  | ListBullet t =>
      exists line,
        input_line text_lines line
        /\ is_bullet_point line = true
        /\ t = clean_bullet_point U line
  | Paragraph runs =>
      exists first rest,
        runs = first :: map (app (lit " ")) rest
        /\ Forall (input_line text_lines) (first :: rest)
  | Table _ => False
  end.

(** The loop has added blocks behind [d0], and the paragraph it holds is
    the last of them. *)
Definition loop_invariant (text_lines : list pystr) (d0 : Document)
  (st : LoopState) : Prop :=
  exists added,
    doc st = d0 ++ added
    /\ Forall (block_from_lines text_lines) added
    /\ match current_paragraph st with
       | None => True
       | Some p =>
           exists before runs,
             added = before ++ [Paragraph runs]
             /\ p = length d0 + length before
       end.

End LoopVocabulary.

(** The table [U] keeps digits apart from letters and from the bullet
    markers: a digit is not uppercase, is none of the four glyphs and is
    not the full stop. *)
Definition digit_table_sane (U : Unicode) : Prop :=
  forall c,
    isdigit_c U c = true ->
    isupper_c U c = false /\ ~ In c glyph_markers /\ c <> 46%N.

Definition page_number_line : pystr := lit "12".

(** A table of blank cells around one [None]. *)
Definition blank_table : RawTable :=
  [[Some (lit "  "); None]; [Some []; Some (lit " ")]].

Definition split_page : list PageContent :=
  [{| page_number := 1; text := lit "x"; tables := [] |};
   {| page_number := 2; text := lit "y"; tables := [table_b] |}].

Definition joined_page : list PageContent :=
  [{| page_number := 7; text := [120%N; 10%N; 121%N];
      tables := [table_b] |}].

(** What one page of the PDF contributes to the extracted content: an
    entry when it has text, nothing otherwise. *)
Definition page_entry (U : Unicode) (item : nat * RawPage)
  : list PageContent :=
  match extract_text (snd item) with
  | Some ((_ :: _) as t) =>
      [{| page_number := fst item + 1;
          text := strip U t;
          tables := extract_tables (snd item) |}]
  | _ => []
  end.

(** The world of the examples, except that the only page of every PDF
    holds white space. *)
Definition blank_pages (w : demo_world) (p : pystr)
  : option (list RawPage) :=
  Some [{| extract_text := Some (lit "  "); extract_tables := [] |}].

Definition is_success (e : FileEntry) : bool :=
  match status e with
  | success => true
  | failed_status => false
  end.

(** A success entry carries the path of the written file, a failure entry
    carries none. *)
Definition entry_consistent (e : FileEntry) : Prop :=
  match status e with
  | success => exists out, word e = Some out /\ out <> []
  | failed_status => word e = None
  end.

(** The counts agree with the entries, and every entry is consistent. *)
Definition counted (r : BatchResult) : Prop :=
  successful r = N.of_nat (length (filter is_success (files r)))
  /\ failed r
     = N.of_nat (length (filter (fun e => negb (is_success e)) (files r)))
  /\ Forall entry_consistent (files r).

(** ** Image placeholders *)

Definition image_keywords : list pystr :=
  map lit ["figure"; "image"; "logo"; "chart"; "graph"; "diagram";
           "see below"; "shown above"; "illustration"]%string.

Definition image_title_words : list pystr :=
  map lit ["fig"; "image"; "logo"]%string.

Section Images.

Variable U : Unicode.

Definition detect_image_placeholders (text_lines : list pystr)
  : list nat :=
  fold_left (fun image_positions (item : nat * pystr) =>
               let '(i, line) := item in
               let line_lower := strip U (str_lower U line) in
               let image_positions :=
                 if existsb (contains line_lower) image_keywords
                 then image_positions ++ [i]
                 else image_positions in
               if (length (strip U line) <? 50)
                  && existsb (contains line_lower) image_title_words
               then image_positions ++ [i]
               else image_positions)
            (enumerate text_lines) [].

(** The two tests of the loop. *)
Definition mentions_image (line : pystr) : bool :=
  existsb (contains (strip U (str_lower U line))) image_keywords.

Definition looks_like_image_title (line : pystr) : bool :=
  (length (strip U line) <? 50)
  && existsb (contains (strip U (str_lower U line))) image_title_words.

(** The positions one line contributes. *)
Definition positions_of (item : nat * pystr) : list nat :=
  (if mentions_image (snd item) then [fst item] else [])
  ++ (if looks_like_image_title (snd item) then [fst item] else []).

End Images.

Definition logo_lines : list pystr :=
  [lit "Intro"; lit "  Company Logo "; lit "See Figure 3 for the results"].

(** ** The loop with the condition read as its operands suggest

    In [next_starts_paragraph] the operand [not next_line] is never
    consulted.  The variant below gives it its say: an empty next line
    closes the paragraph at once.  It is not part of the converter; it
    serves to compare the converter with. *)

Section EagerVariant.

Variable U : Unicode.

Definition next_starts_paragraph_eager (next_line : pystr) : Exc bool :=
  if truthy next_line then next_starts_paragraph U next_line
  else ret true.

Definition append_text_eager (text_lines : list pystr) (i : nat)
  (line : pystr) (st : LoopState) : Exc LoopState :=
  let '(d, p) := match current_paragraph st with
                 | None => add_paragraph (doc st)
                 | Some p => (doc st, p)
                 end in
  let d := if truthy (paragraph_text p d)
           then add_run p (lit " " ++ line) d
           else add_run p line d in
  let st := {| doc := d; current_paragraph := Some p |} in
  if ends_sentence line then
    let next_line := next_line_of U text_lines i in
    c <- next_starts_paragraph_eager next_line ;;
    if c then ret (close_paragraph st) else ret st
  else ret st.

Definition process_line_eager (text_lines : list pystr) (st : LoopState)
  (item : nat * pystr) : Exc LoopState :=
  let '(i, line) := item in
  let line := strip U line in
  if negb (truthy line) then
    match current_paragraph st with
    | Some _ => ret (close_paragraph st)
    | None => ret st
    end
  else if str_isdigit U line && (length line <=? 3) then ret st
  else
    t <- is_main_title U line ;;
    if t then ret (close_paragraph
                     {| doc := add_heading line 1 (doc st);
                        current_paragraph := current_paragraph st |})
    else
      s <- is_subtitle U line ;;
      if s then ret (close_paragraph
                       {| doc := add_heading line 2 (doc st);
                          current_paragraph := current_paragraph st |})
      else if is_bullet_point line then
        let clean_line := clean_bullet_point U line in
        ret (close_paragraph
               {| doc := add_list_bullet clean_line (doc st);
                  current_paragraph := current_paragraph st |})
      else append_text_eager text_lines i line st.

Definition process_text_content_eager (d : Document)
  (text_lines : list pystr) : Exc Document :=
  st <- forE (process_line_eager text_lines) (enumerate text_lines)
             {| doc := d; current_paragraph := None |} ;;
  ret (doc st).

(** The two loops agree before line [k]: same document, and same
    paragraph at hand unless the eager loop has closed it ahead of a blank
    or missing line [k]. *)
Definition agree_at (text_lines : list pystr) (k : nat)
  (eager st : LoopState) : Prop :=
  doc eager = doc st
  /\ (current_paragraph eager = current_paragraph st
      \/ current_paragraph eager = None
         /\ forall raw, nth_error text_lines k = Some raw ->
                        strip U raw = []).

End EagerVariant.

(** * Properties *)

(** ** The error monad *)

Lemma bind_ret {A B} (x : A) (k : A -> Exc B) : bind (ret x) k = k x.
Proof. reflexivity. Qed.

Lemma returns_ret {A} (x : A) : returns (ret x).
Proof. exists x. reflexivity. Qed.

Lemma returns_bind {A B} (c : Exc A) (k : A -> Exc B) :
  returns c -> (forall x, returns (k x)) -> returns (bind c k).
Proof.
  intros [x ->] Hk. apply Hk.
Qed.

Lemma returns_andE (a b : Exc bool) :
  returns a -> (a = ret true -> returns b) -> returns (a &&& b).
Proof.
  intros [x ->] Hb. destruct x; cbn.
  - apply Hb. reflexivity.
  - apply returns_ret.
Qed.

Lemma returns_orE (a b : Exc bool) :
  returns a -> (a = ret false -> returns b) -> returns (a ||| b).
Proof.
  intros [x ->] Hb. destruct x; cbn.
  - apply returns_ret.
  - apply Hb. reflexivity.
Qed.

(** Evaluate the monad's operations where their arguments are values. *)
Ltac exc_simpl := unfold andE, orE, index0; cbn [bind ret raise].

Ltac returns_cases :=
  repeat (apply returns_ret ||
          match goal with
          | |- context [if ?b then _ else _] => destruct b; cbn [bind ret raise]
          end).

(** ** Rounded division *)

Section RoundDiv.

Local Open Scope Z_scope.

(** For a quotient in (0, 1] the significand is scaled by [2 ^ k] with
    [2 ^ 52 <= a * 2 ^ k / b < 2 ^ 53]. *)
Lemma round_div_shape (a b : N) :
  (0 < a)%N -> (a <= b)%N ->
  exists k q,
    52 <= k /\
    2 ^ 52 * Z.of_N b <= Z.of_N a * 2 ^ k < 2 ^ 53 * Z.of_N b /\
    q = (Z.of_N a * 2 ^ k) / Z.of_N b /\
    expo (round_div a b) = - k /\
    q <= mant (round_div a b) <= q + 1 /\
    (2 * ((Z.of_N a * 2 ^ k) mod Z.of_N b) < Z.of_N b ->
     mant (round_div a b) = q).
Proof.
  intros Ha Hab.
  unfold round_div.
  destruct (N.eqb_spec a 0) as [->|_]; [lia|].
  set (za := Z.of_N a). set (zb := Z.of_N b).
  assert (Hza : 0 < za) by (unfold za; lia).
  assert (Hzb : za <= zb) by (unfold za, zb; lia).
  pose proof (Z.log2_spec za Hza) as [La1 La2].
  pose proof (Z.log2_spec zb ltac:(lia)) as [Lb1 Lb2].
  pose proof (Z.log2_le_mono za zb Hzb) as Hlog.
  pose proof (Z.log2_nonneg za) as Hla.
  set (la := Z.log2 za) in *. set (lb := Z.log2 zb) in *.
  set (k0 := 52 - (la - lb)).
  assert (Hk0 : 52 <= k0) by (unfold k0; lia).
  assert (Hsd : forall k, 52 <= k -> scale_den zb k = zb).
  { intros k Hk. unfold scale_den. rewrite Z.max_r by lia. simpl. lia. }
  assert (Hsn : forall k, 52 <= k -> scale_num za k = za * 2 ^ k).
  { intros k Hk. unfold scale_num. rewrite Z.max_l by lia. reflexivity. }
  (* bounds at k0 *)
  assert (Hup : za * 2 ^ k0 < 2 ^ 53 * zb).
  { apply Z.lt_le_trans with (2 ^ (la + 1) * 2 ^ k0).
    - apply Z.mul_lt_mono_pos_r; [apply Z.pow_pos_nonneg; lia | lia].
    - rewrite <- Z.pow_add_r by lia.
      replace (la + 1 + k0) with (53 + lb) by (unfold k0; lia).
      rewrite Z.pow_add_r by lia.
      apply Z.mul_le_mono_nonneg_l; [apply Z.pow_nonneg; lia | lia]. }
  assert (Hlo : 2 ^ 52 * zb < 2 * (za * 2 ^ k0)).
  { apply Z.lt_le_trans with (2 ^ 52 * 2 ^ (lb + 1)).
    - apply Z.mul_lt_mono_pos_l; [apply Z.pow_pos_nonneg; lia | lia].
    - rewrite <- Z.pow_add_r by lia.
      replace (52 + (lb + 1)) with (1 + (la + k0)) by (unfold k0; lia).
      rewrite Z.pow_add_r by lia. rewrite Z.pow_add_r by lia.
      change (2 ^ 1) with 2.
      assert (0 < 2 ^ k0) by (apply Z.pow_pos_nonneg; lia).
      nia. }
  set (k := if 2 ^ 52 * scale_den zb k0 <=? scale_num za k0
            then k0 else k0 + 1).
  assert (Hk : 52 <= k /\ 2 ^ 52 * zb <= za * 2 ^ k < 2 ^ 53 * zb).
  { unfold k. rewrite Hsd, Hsn by lia.
    destruct (Z.leb_spec (2 ^ 52 * zb) (za * 2 ^ k0)).
    - lia.
    - rewrite Z.pow_add_r by lia. change (2 ^ 1) with 2. lia. }
  destruct Hk as [Hk52 Hk].
  exists k, (za * 2 ^ k / zb).
  rewrite Hsd, Hsn by lia. cbn [mant expo].
  repeat split; try lia.
  - destruct (_ || _); lia.
  - destruct (_ || _); lia.
  - intros Hr.
    destruct (Z.ltb_spec zb (2 * ((za * 2 ^ k) mod zb))); [lia|].
    destruct (Z.eqb_spec zb (2 * ((za * 2 ^ k) mod zb))); [lia|].
    reflexivity.
Qed.

Lemma float_0_3_value : float_0_3 = {| mant := 5404319552844595; expo := -54 |}.
Proof. vm_compute. reflexivity. Qed.

(** Up to [2 ^ 51] cells the rounded quotient compares with the double
    [0.3] as the exact quotient compares with 3/10. *)
Lemma ratio_test_cases (a b : N) :
  (0 < b)%N -> (a <= b)%N ->
  (b < 2 ^ 51)%N \/ 3 * Z.of_N b <= 10 * Z.of_N a ->
  float_ge (round_div a b) float_0_3 = true <-> 3 * Z.of_N b <= 10 * Z.of_N a.
Proof.
  intros Hb Hab Hbound.
  rewrite float_0_3_value.
  destruct (N.eq_dec a 0) as [->|Ha].
  { vm_compute round_div. split; [vm_compute; discriminate | lia]. }
  destruct (@round_div_shape a b ltac:(lia) Hab)
    as (k & q & Hk & Hbr & Hq & He & Hm & Hexact).
  unfold float_ge. cbn [mant expo]. rewrite He.
  set (m := mant (round_div a b)) in *.
  set (za := Z.of_N a) in *. set (zb := Z.of_N b) in *.
  assert (Hzb : 0 < zb) by (unfold zb; lia).
  assert (Hza : 0 < za <= zb) by (unfold za, zb; lia).
  set (P := za * 2 ^ k) in *.
  pose proof (Z.div_mod P zb ltac:(lia)) as Hdm.
  pose proof (Z.mod_pos_bound P zb ltac:(lia)) as Hr.
  rewrite <- Hq in Hdm.
  set (r := P mod zb) in *.
  assert (Hq52 : 2 ^ 52 <= q < 2 ^ 53) by nia.
  rewrite Z.leb_le.
  destruct (Z.le_gt_cases k 53) as [Hk53|Hk54].
  - (* the quotient is at least one half *)
    rewrite Z.min_r by lia.
    replace (-54 - -54) with 0 by lia.
    replace (- k - -54) with (54 - k) by lia.
    assert (H2 : 2 <= 2 ^ (54 - k)).
    { change 2 with (2 ^ 1) at 1. apply Z.pow_le_mono_r; lia. }
    assert (Hpk : 2 ^ k <= 2 ^ 53) by (apply Z.pow_le_mono_r; lia).
    split; intros _; [|nia].
    unfold P in Hbr. nia.
  - destruct (Z.eq_dec k 54) as [->|Hk55].
    + (* the binade of 0.3 *)
      rewrite Z.min_l by lia.
      replace (-54 - -54) with 0 by lia.
      change (2 ^ 0) with 1. rewrite !Z.mul_1_r.
      unfold P in *. change (2 ^ 54) with 18014398509481984 in *.
      split; intros H.
      * destruct Hbound as [Hbound|Hge]; [|exact Hge].
        assert (Hzb51 : zb < 2251799813685248)
          by (unfold zb; change 2251799813685248 with (Z.of_N (2 ^ 51)); lia).
        destruct (Z.le_gt_cases (3 * zb) (10 * za)) as [|Hlt]; [assumption|].
        exfalso.
        assert (Hq' : q <= 5404319552844594) by nia.
        destruct (Z.eq_dec q 5404319552844594) as [Heq|Hne].
        -- assert (m = q) by (apply Hexact; nia). lia.
        -- lia.
      * assert (5404319552844595 <= q) by nia. lia.
    + (* the quotient is below one quarter *)
      rewrite Z.min_l by lia.
      replace (- k - - k) with 0 by lia.
      replace (-54 - - k) with (k - 54) by lia.
      assert (H2 : 2 <= 2 ^ (k - 54)).
      { change 2 with (2 ^ 1) at 1. apply Z.pow_le_mono_r; lia. }
      assert (Hpk : 2 ^ 55 <= 2 ^ k) by (apply Z.pow_le_mono_r; lia).
      change (2 ^ 0) with 1.
      change (2 ^ 55) with 36028797018963968 in *.
      change (2 ^ 53) with 9007199254740992 in *.
      split; intros H; exfalso.
      * nia.
      * unfold P in Hbr. nia.
Qed.

Lemma ratio_test (a b : N) :
  (0 < b)%N -> (a <= b)%N -> (b < 2 ^ 51)%N ->
  float_ge (round_div a b) float_0_3 = true <-> 3 * Z.of_N b <= 10 * Z.of_N a.
Proof.
  intros Hb Hab Hbound. apply ratio_test_cases; auto.
Qed.

(** A quotient of at least 3/10 passes the test whatever the size. *)
Lemma ratio_test_accepts (a b : N) :
  (0 < b)%N -> (a <= b)%N -> 3 * Z.of_N b <= 10 * Z.of_N a ->
  float_ge (round_div a b) float_0_3 = true.
Proof.
  intros Hb Hab Hge. apply ratio_test_cases; auto.
Qed.

End RoundDiv.

(** ** The table quality filter *)

Section TableFilterFacts.

Variable U : Unicode.

Lemma strip_nil : strip U [] = [].
Proof. reflexivity. Qed.

Lemma cell_has_content_filled (c : cell) :
  cell_has_content U c = filled U c.
Proof.
  destruct c as [[|x s]|]; reflexivity.
Qed.

Lemma count_row (row : list cell) (f t : N) :
  fold_left (count_cell U) row (f, t)
  = ((f + N.of_nat (length (filter (filled U) row)))%N,
     (t + N.of_nat (length row))%N).
Proof.
  revert f t. induction row as [|c row IH]; intros f t; cbn [fold_left].
  - cbn. f_equal; lia.
  - unfold count_cell at 2. rewrite cell_has_content_filled.
    cbn [filter length]. destruct (filled U c); rewrite IH; cbn [length];
      f_equal; lia.
Qed.

Lemma count_rows (t : RawTable) (f n : N) :
  fold_left (fun acc row => fold_left (count_cell U) row acc) t (f, n)
  = ((f + N.of_nat (length (filter (filled U) (concat t))))%N,
     (n + N.of_nat (length (concat t)))%N).
Proof.
  revert f n. induction t as [|row t IH]; intros f n; cbn [fold_left concat].
  - cbn. f_equal; lia.
  - rewrite count_row, IH, filter_app, !length_app. f_equal; lia.
Qed.

Lemma count_cells_spec (t : RawTable) :
  count_cells U t = (filled_cells U t, total_cells t).
Proof.
  unfold count_cells, filled_cells, total_cells. rewrite count_rows.
  f_equal.
Qed.

Lemma filled_le_total (t : RawTable) :
  (filled_cells U t <= total_cells t)%N.
Proof.
  unfold filled_cells, total_cells.
  pose proof (filter_length_le (filled U) (concat t)). lia.
Qed.

Lemma density_ok_iff (t : RawTable) :
  (0 < total_cells t)%N ->
  density_ok U t
  <-> (3 * Z.of_N (total_cells t) <= 10 * Z.of_N (filled_cells U t))%Z.
Proof.
  intros Hpos. unfold density_ok.
  generalize (Z.of_N (filled_cells U t)). intros f.
  destruct (total_cells t) as [|p]; [lia|].
  unfold Qle, Qdiv, Qmult, Qinv, inject_Z. cbn [Qnum Qden Z.of_N].
  lia.
Qed.

(** The filter always answers, whatever the table. *)
Lemma has_meaningful_content_value (t : RawTable) :
  has_meaningful_content U t
  = ret (truthy t
         && (0 <? total_cells t)%N
         && float_ge (round_div (filled_cells U t) (total_cells t))
                     float_0_3).
Proof.
  unfold has_meaningful_content.
  destruct t as [|row t]; [reflexivity|].
  cbn [truthy negb andb]. rewrite count_cells_spec.
  destruct (N.ltb_spec 0 (total_cells (row :: t))) as [Hpos|Hz]; cbn.
  - unfold true_div. destruct (N.eqb_spec (total_cells (row :: t)) 0); [lia|].
    reflexivity.
  - reflexivity.
Qed.

End TableFilterFacts.

(** C2: the quality filter accepts a table exactly when it has a cell and
    the share of filled cells is at least 0.30.  The quotient is a
    binary64 number: below 2^51 cells it decides as the exact ratio does,
    and a ratio of at least 0.30 is accepted whatever the size.  The
    filter rejects the empty table and the 1/6 table, and accepts the 4/6
    table. *)
Theorem has_meaningful_content_density :
  (forall (U : Unicode) (t : RawTable),
      (total_cells t < cell_bound)%N ->
      exists b,
        has_meaningful_content U t = ret b /\
        (b = true <-> (0 < total_cells t)%N /\ density_ok U t))
  /\ (forall (U : Unicode) (t : RawTable),
         (0 < total_cells t)%N -> density_ok U t ->
         has_meaningful_content U t = ret true)
  /\ (forall U, has_meaningful_content U [] = ret false)
  /\ (has_meaningful_content basic_latin table_a = ret false
      /\ filled_cells basic_latin table_a = 1%N
      /\ total_cells table_a = 6%N)
  /\ (has_meaningful_content basic_latin table_b = ret true
      /\ filled_cells basic_latin table_b = 4%N
      /\ total_cells table_b = 6%N).
Proof.
  split; [|split; [|split; [|split]]].
  - intros U t Hbound.
    rewrite has_meaningful_content_value. eexists. split; [reflexivity|].
    destruct (N.ltb_spec 0 (total_cells t)) as [Hpos|Hz].
    + assert (Ht : truthy t = true).
      { destruct t; [cbn in Hpos; lia | reflexivity]. }
      rewrite Ht. cbn [andb].
      rewrite ratio_test, density_ok_iff;
        [tauto | assumption | assumption | apply filled_le_total | assumption].
    + rewrite andb_false_r. cbn [andb]. split; [discriminate | lia].
  - intros U t Hpos Hdense.
    rewrite has_meaningful_content_value.
    assert (Ht : truthy t = true).
    { destruct t; [cbn in Hpos; lia | reflexivity]. }
    rewrite Ht. apply N.ltb_lt in Hpos as Hpos'. rewrite Hpos'. cbn [andb].
    rewrite ratio_test_accepts;
      [reflexivity | assumption | apply filled_le_total |].
    now apply density_ok_iff.
  - reflexivity.
  - repeat split; vm_compute; reflexivity.
  - repeat split; vm_compute; reflexivity.
Qed.

Lemma has_meaningful_content_density_witness :
  (total_cells table_b < cell_bound)%N /\
  exists b,
    has_meaningful_content basic_latin table_b = ret b /\
    (b = true <->
     (0 < total_cells table_b)%N /\ density_ok basic_latin table_b).
Proof.
  split.
  - vm_compute. reflexivity.
  - apply (proj1 has_meaningful_content_density basic_latin table_b).
    vm_compute. reflexivity.
Defined.

(** ** Totality of the line tests *)

Section LineTests.

Variable U : Unicode.

Lemma index0_cons (c : pychar) (s : pystr) : index0 (c :: s) = ret c.
Proof. reflexivity. Qed.

Lemma is_main_title_returns (line : pystr) : returns (is_main_title U line).
Proof.
  unfold is_main_title.
  destruct line as [|c s]; [apply returns_ret|].
  cbn [truthy negb orb].
  destruct (150 <? length (c :: s)); [apply returns_ret|].
  destruct (_ && _); [apply returns_ret|].
  exc_simpl. returns_cases.
Qed.

Lemma is_subtitle_returns (line : pystr) : returns (is_subtitle U line).
Proof.
  unfold is_subtitle.
  destruct line as [|c s]; [apply returns_ret|].
  cbn [truthy negb orb].
  destruct (120 <? length (c :: s)); [apply returns_ret|].
  exc_simpl. returns_cases.
Qed.

Lemma next_starts_paragraph_returns (next_line : pystr) :
  returns (next_starts_paragraph U next_line).
Proof.
  unfold next_starts_paragraph.
  destruct next_line as [|c s]; [apply returns_ret|].
  cbn [truthy negb].
  destruct (is_main_title_returns (c :: s)) as [t ->].
  destruct (is_subtitle_returns (c :: s)) as [u ->].
  exc_simpl. returns_cases.
Qed.

(** The chain of [or]s is never consulted for an empty next line: the
    paragraph stays open. *)
Lemma next_starts_paragraph_nil : next_starts_paragraph U [] = ret false.
Proof. reflexivity. Qed.

Lemma next_starts_paragraph_upper (c : pychar) (s : pystr) :
  isupper_c U c = true -> next_starts_paragraph U (c :: s) = ret true.
Proof.
  intros Hc. unfold next_starts_paragraph.
  cbn [truthy negb].
  destruct (is_main_title_returns (c :: s)) as [t ->].
  destruct (is_subtitle_returns (c :: s)) as [u ->].
  exc_simpl. rewrite Hc.
  destruct t, u, (is_bullet_point (c :: s)); reflexivity.
Qed.

Lemma next_starts_paragraph_other (c : pychar) (s : pystr) :
  isupper_c U c = false ->
  is_main_title U (c :: s) = ret false ->
  is_subtitle U (c :: s) = ret false ->
  is_bullet_point (c :: s) = false ->
  next_starts_paragraph U (c :: s) = ret false.
Proof.
  intros Hc Ht Hs Hb. unfold next_starts_paragraph.
  cbn [truthy negb]. rewrite Ht, Hs, Hb. exc_simpl. rewrite Hc.
  reflexivity.
Qed.

Lemma append_text_returns (text_lines : list pystr) (i : nat)
  (line : pystr) (st : LoopState) :
  returns (append_text U text_lines i line st).
Proof.
  unfold append_text.
  destruct (match current_paragraph st with
            | Some p => (doc st, p)
            | None => add_paragraph (doc st)
            end) as [d p].
  destruct (ends_sentence line); [|apply returns_ret].
  destruct (next_starts_paragraph_returns (next_line_of U text_lines i))
    as [c ->].
  destruct c; apply returns_ret.
Qed.

(** The loop body follows the priority order of the classifier. *)
Lemma process_line_classify (text_lines : list pystr) (st : LoopState)
  (i : nat) (raw : pystr) :
  process_line U text_lines st (i, raw)
  = c <- classify U (strip U raw) ;;
    perform U c text_lines i (strip U raw) st.
Proof.
  unfold process_line, classify, priority_rules, first_match, is_blank,
    is_page_number.
  set (line := strip U raw).
  destruct line as [|x s] eqn:E.
  - reflexivity.
  - cbn [truthy negb bind ret].
    destruct (str_isdigit U (x :: s) && (length (x :: s) <=? 3));
      [reflexivity|].
    destruct (is_main_title_returns (x :: s)) as [t ->].
    destruct t; [reflexivity|].
    destruct (is_subtitle_returns (x :: s)) as [u ->].
    destruct u; [reflexivity|].
    cbn [bind ret].
    destruct (is_bullet_point (x :: s)); reflexivity.
Qed.

Lemma process_line_returns (text_lines : list pystr) (st : LoopState)
  (item : nat * pystr) :
  returns (process_line U text_lines st item).
Proof.
  destruct item as [i raw]. unfold process_line.
  destruct (strip U raw) as [|x s] eqn:E.
  - cbn. destruct (current_paragraph st); apply returns_ret.
  - cbn [truthy negb].
    destruct (_ && _); [apply returns_ret|].
    destruct (is_main_title_returns (x :: s)) as [t ->].
    destruct t; [apply returns_ret|].
    destruct (is_subtitle_returns (x :: s)) as [u ->].
    destruct u; [apply returns_ret|].
    cbn [bind ret].
    destruct (is_bullet_point (x :: s)); [apply returns_ret|].
    apply append_text_returns.
Qed.

Lemma forE_returns {A S} (body : S -> A -> Exc S) (xs : list A) (s : S) :
  (forall s x, returns (body s x)) -> returns (forE body xs s).
Proof.
  intros Hbody. revert s. induction xs as [|x xs IH]; intros s.
  - apply returns_ret.
  - cbn [forE]. destruct (Hbody s x) as [s' ->]. apply IH.
Qed.

Lemma text_loop_returns (d : Document) (text_lines : list pystr) :
  returns (text_loop U d text_lines).
Proof.
  apply forE_returns. apply process_line_returns.
Qed.

Lemma process_text_content_returns (d : Document) (text_lines : list pystr) :
  returns (process_text_content U d text_lines).
Proof.
  unfold process_text_content.
  destruct (text_loop_returns d text_lines) as [st ->]. apply returns_ret.
Qed.

End LineTests.

(** ** Classification *)

Lemma first_match_skip (rules after : list (Test * Category))
  (line : pystr) :
  all_reject rules line ->
  first_match (rules ++ after) line = first_match after line.
Proof.
  induction 1 as [|[test c] rules Hrej _ IH]; [reflexivity|].
  cbn [app first_match]. cbn [fst] in Hrej. rewrite Hrej. exact IH.
Qed.

(** C1: the loop body tests a trimmed line in the order blank, page
    number, main title, subtitle, bullet, plain text, and the first test
    that holds decides; "OVERVIEW" is a main title and "• Introduction" a
    bullet item. *)
Theorem classification_first_match_wins :
  (forall U text_lines st i raw,
      process_line U text_lines st (i, raw)
      = c <- classify U (strip U raw) ;;
        perform U c text_lines i (strip U raw) st)
  /\ (forall U line before test c after,
         priority_rules U = before ++ (test, c) :: after ->
         all_reject before line ->
         test line = ret true ->
         classify U line = ret c)
  /\ (forall U line,
         all_reject (priority_rules U) line ->
         classify U line = ret PlainText)
  /\ (forall U, map snd (priority_rules U)
                = [Noise; Noise; MainTitle; Subtitle; BulletItem])
  /\ classify basic_latin overview_line = ret MainTitle
  /\ process_text_content basic_latin [] [overview_line]
     = ret [Heading 1 overview_line]
  /\ classify basic_latin introduction_line = ret BulletItem
  /\ process_text_content basic_latin [] [introduction_line]
     = ret [ListBullet (lit "Introduction")].
Proof.
  split; [|split; [|split; [|split]]].
  - intros. apply process_line_classify.
  - intros U line before test c after Hrules Hbefore Htest.
    unfold classify. rewrite Hrules, first_match_skip by assumption.
    cbn [first_match]. rewrite Htest. reflexivity.
  - intros U line Hall. unfold classify.
    rewrite <- (app_nil_r (priority_rules U)).
    rewrite first_match_skip by assumption. reflexivity.
  - reflexivity.
  - repeat split; vm_compute; reflexivity.
Qed.

Lemma classification_first_match_wins_witness :
  priority_rules basic_latin
  = [(is_blank, Noise); (is_page_number basic_latin, Noise)]
    ++ (is_main_title basic_latin, MainTitle)
    :: [(is_subtitle basic_latin, Subtitle);
        ((fun line => ret (is_bullet_point line)), BulletItem)]
  /\ all_reject [(is_blank, Noise); (is_page_number basic_latin, Noise)]
                overview_line
  /\ is_main_title basic_latin overview_line = ret true
  /\ classify basic_latin overview_line = ret MainTitle.
Proof.
  assert (H1 : all_reject
                 [(is_blank, Noise); (is_page_number basic_latin, Noise)]
                 overview_line).
  { repeat constructor. }
  assert (H2 : is_main_title basic_latin overview_line = ret true).
  { vm_compute. reflexivity. }
  split; [reflexivity|]. split; [exact H1|]. split; [exact H2|].
  apply (proj1 (proj2 classification_first_match_wins)
           basic_latin overview_line
           [(is_blank, Noise); (is_page_number basic_latin, Noise)]
           (is_main_title basic_latin) MainTitle
           [(is_subtitle basic_latin, Subtitle);
            ((fun line => ret (is_bullet_point line)), BulletItem)]);
    [reflexivity | exact H1 | exact H2].
Defined.

(** *** The subtitle test *)

Lemma length_question_line (n : nat) : length (question_line n) = n + 2.
Proof.
  unfold question_line. rewrite !length_app, repeat_length. cbn. lia.
Qed.

(** C7, as the specification has it, fails at length 120: the line
    [A b...b ?] of 120 characters starts uppercase, ends with a question
    mark, passes none of the earlier tests, and is plain text. *)
Lemma subtitle_length_120_counterexample :
  ~ (forall U line c s,
        line = c :: s ->
        length line <= 120 ->
        isupper_c U c = true ->
        endswith line (lit "?") = true ->
        is_page_number U line = ret false ->
        is_main_title U line = ret false ->
        classify U line = ret Subtitle).
Proof.
  intros H.
  specialize (H basic_latin (question_line 118) 65%N
                (repeat 98%N 118 ++ lit "?") eq_refl).
  assert (Hc : classify basic_latin (question_line 118) = ret PlainText)
    by (vm_compute; reflexivity).
  rewrite Hc in H.
  assert (Hfalse : ret PlainText = ret Subtitle :> Exc Category).
  { apply H.
    - rewrite length_question_line. lia.
    - reflexivity.
    - vm_compute. reflexivity.
    - vm_compute. reflexivity.
    - vm_compute. reflexivity. }
  discriminate Hfalse.
Qed.

(** C7, amended: a line shorter than 120 characters that starts with an
    uppercase character and ends with a question mark, and that is neither
    a page number nor a main title, is a subtitle. *)
Theorem question_line_is_subtitle (U : Unicode) (line : pystr)
  (c : pychar) (s : pystr) :
  line = c :: s ->
  length line < 120 ->
  isupper_c U c = true ->
  endswith line (lit "?") = true ->
  is_page_number U line = ret false ->
  is_main_title U line = ret false ->
  is_subtitle U line = ret true /\ classify U line = ret Subtitle.
Proof.
  intros -> Hlen Hup Hq Hpage Htitle.
  assert (Hsub : is_subtitle U (c :: s) = ret true).
  { unfold is_subtitle. cbn [truthy negb orb].
    destruct (Nat.ltb_spec 120 (length (c :: s))); [lia|].
    destruct (Nat.ltb_spec (length (c :: s)) 120); [|lia].
    exc_simpl. rewrite Hup, Hq. reflexivity. }
  split; [exact Hsub|].
  unfold classify, priority_rules, first_match, is_blank.
  cbn [truthy negb]. rewrite Hpage, Htitle, Hsub. reflexivity.
Qed.

Lemma question_line_is_subtitle_witness :
  length (question_line 117) < 120 /\
  is_subtitle basic_latin (question_line 117) = ret true /\
  classify basic_latin (question_line 117) = ret Subtitle.
Proof.
  split; [rewrite length_question_line; lia|].
  apply (@question_line_is_subtitle basic_latin (question_line 117) 65%N
           (repeat 98%N 117 ++ lit "?")).
  - reflexivity.
  - rewrite length_question_line. lia.
  - reflexivity.
  - vm_compute. reflexivity.
  - vm_compute. reflexivity.
  - vm_compute. reflexivity.
Defined.

(** ** Paragraph continuation *)

(** C3: the code leaves the paragraph open after a sentence-ending plain
    line whose successor is blank or missing; the test for an empty next
    line sits inside the branch taken only for a non-empty one. *)
Theorem paragraph_stays_open_before_blank :
  (forall U, next_starts_paragraph U [] = ret false)
  /\ classify basic_latin done_line = ret PlainText
  /\ ends_sentence done_line = true
  /\ text_loop basic_latin [] [done_line]
     = ret {| doc := [Paragraph [done_line]];
              current_paragraph := Some 0 |}
  /\ process_line basic_latin [done_line; []] fresh_state (0, done_line)
     = ret {| doc := [Paragraph [done_line]];
              current_paragraph := Some 0 |}.
Proof.
  split; [intros U; apply next_starts_paragraph_nil|].
  repeat split; vm_compute; reflexivity.
Qed.

(** C4: a lowercase continuation is merged into the open paragraph with
    one space, an uppercase start opens a second paragraph. *)
Theorem paragraph_merge_and_split :
  (forall U c s,
      isupper_c U c = true -> next_starts_paragraph U (c :: s) = ret true)
  /\ (forall U c s,
         isupper_c U c = false ->
         is_main_title U (c :: s) = ret false ->
         is_subtitle U (c :: s) = ret false ->
         is_bullet_point (c :: s) = false ->
         next_starts_paragraph U (c :: s) = ret false)
  /\ (exists d,
         process_text_content basic_latin [] [sentence_line; continues_line]
         = ret d
         /\ d = [Paragraph [sentence_line; lit " " ++ continues_line]]
         /\ paragraph_text 0 d = lit "This is a sentence. this continues.")
  /\ process_text_content basic_latin [] [sentence_line; next_starts_line]
     = ret [Paragraph [sentence_line]; Paragraph [next_starts_line]].
Proof.
  split; [|split; [|split]].
  - intros. now apply next_starts_paragraph_upper.
  - intros. now apply next_starts_paragraph_other.
  - eexists. split; [vm_compute; reflexivity|].
    split; vm_compute; reflexivity.
  - vm_compute. reflexivity.
Qed.

Lemma paragraph_merge_and_split_witness :
  (isupper_c basic_latin 78%N = true /\
   next_starts_paragraph basic_latin next_starts_line = ret true)
  /\ (isupper_c basic_latin 116%N = false /\
      is_main_title basic_latin continues_line = ret false /\
      is_subtitle basic_latin continues_line = ret false /\
      is_bullet_point continues_line = false /\
      next_starts_paragraph basic_latin continues_line = ret false).
Proof.
  split.
  - split; [reflexivity|].
    apply (proj1 paragraph_merge_and_split basic_latin 78%N
             (lit "ext starts here.")).
    reflexivity.
  - assert (H1 : is_main_title basic_latin continues_line = ret false)
      by (vm_compute; reflexivity).
    assert (H2 : is_subtitle basic_latin continues_line = ret false)
      by (vm_compute; reflexivity).
    assert (H3 : is_bullet_point continues_line = false)
      by (vm_compute; reflexivity).
    split; [reflexivity|]. split; [exact H1|]. split; [exact H2|].
    split; [exact H3|].
    exact (proj1 (proj2 paragraph_merge_and_split) basic_latin 116%N
             (lit "his continues.") eq_refl H1 H2 H3).
Defined.

(** ** Objects of the document *)

Section UpdateAt.

Context {A : Type}.

Lemma update_at_app (a r : list A) (x : A) (f : A -> A) :
  update_at (length a) f (a ++ x :: r) = a ++ f x :: r.
Proof.
  induction a as [|y a IH]; cbn; [reflexivity | now rewrite IH].
Qed.

Lemma update_at_twice (i : nat) (f h : A -> A) (l : list A) :
  update_at i f (update_at i h l) = update_at i (fun x => f (h x)) l.
Proof.
  revert i. induction l as [|x l IH]; intros [|i]; cbn; try reflexivity.
  now rewrite IH.
Qed.

Lemma update_at_ext (i : nat) (f h : A -> A) (l : list A) (x : A) :
  nth_error l i = Some x -> f x = h x -> update_at i f l = update_at i h l.
Proof.
  revert i. induction l as [|y l IH]; intros [|i] Hx Hfh; cbn in *;
    try discriminate.
  - injection Hx as ->. now rewrite Hfh.
  - f_equal. now apply IH.
Qed.

Lemma nth_error_update_at (i : nat) (f : A -> A) (l : list A) (x : A) :
  nth_error l i = Some x -> nth_error (update_at i f l) i = Some (f x).
Proof.
  revert i. induction l as [|y l IH]; intros [|i] Hx; cbn in *;
    try discriminate.
  - now injection Hx as ->.
  - now apply IH.
Qed.

Lemma forallb_update_at (P : A -> bool) (i : nat) (f : A -> A)
  (l : list A) :
  (forall x, P x = true -> P (f x) = true) ->
  forallb P l = true -> forallb P (update_at i f l) = true.
Proof.
  intros Hf. revert i. induction l as [|y l IH]; intros [|i] H; cbn in *;
    try reflexivity; apply andb_true_iff in H as [Hy Hl];
    apply andb_true_iff; split; auto.
Qed.

End UpdateAt.

Lemma nth_error_last_object (d : Document) (b : Block) :
  nth_error (d ++ [b]) (length d) = Some b.
Proof.
  rewrite nth_error_app2 by lia. now rewrite Nat.sub_diag.
Qed.

Lemma row_cells_last (d : Document) (g : list (list pystr)) (i : nat) :
  row_cells (length d) i (d ++ [Table g]) = length (nth i g []).
Proof.
  unfold row_cells. now rewrite nth_error_last_object.
Qed.

Lemma set_cell_text_last (d : Document) (g : list (list pystr))
  (i j : nat) (s : pystr) :
  set_cell_text (length d) i j s (d ++ [Table g])
  = d ++ [Table (update_at i (update_at j (fun _ => s)) g)].
Proof.
  unfold set_cell_text. now rewrite update_at_app.
Qed.

(** ** Filling a table *)

Lemma update_at_same {A} (i : nat) (l : list A) (x : A) :
  nth_error l i = Some x -> update_at i (fun _ => x) l = l.
Proof.
  revert i. induction l as [|y l IH]; intros [|i] Hx; cbn in *;
    try discriminate.
  - now injection Hx as ->.
  - f_equal. now apply IH.
Qed.

Section Fill.

Variable cols : nat.

(** The inner loop, started at column [length done]: the cells of [rest]
    replace the next empty cells of row [i]. *)
Lemma fill_cells (d : Document) (i : nat) (rest : list pystr) :
  forall (done : list pystr) (g : list (list pystr)),
    nth_error g i = Some (done ++ repeat [] (cols - length done)) ->
    length done + length rest <= cols ->
    fold_left (fun d' (item : nat * pystr) =>
                 let '(j, cell_data) := item in
                 if j <? row_cells (length d) i d'
                 then set_cell_text (length d) i j cell_data d'
                 else d')
              (combine (seq (length done) (length rest)) rest)
              (d ++ [Table g])
    = d ++ [Table (update_at i (fun _ => pad_row cols (done ++ rest)) g)].
Proof.
  induction rest as [|c rest IH]; intros done g Hrow Hlen.
  - cbn [length seq combine fold_left]. unfold pad_row.
    rewrite app_nil_r, update_at_same; [reflexivity | assumption].
  - cbn [length seq combine fold_left] in *.
    rewrite row_cells_last, set_cell_text_last.
    rewrite (nth_error_nth _ _ [] Hrow), length_app, repeat_length.
    destruct (Nat.ltb_spec (length done)
                (length done + (cols - length done))) as [_|Hge]; [|lia].
    assert (Hrow' :
      nth_error (update_at i (update_at (length done) (fun _ => c)) g) i
      = Some ((done ++ [c]) ++ repeat [] (cols - length (done ++ [c])))).
    { rewrite (nth_error_update_at _ _ _ Hrow).
      replace (cols - length done) with (S (cols - length (done ++ [c])))
        by (rewrite length_app; cbn; lia).
      cbn [repeat]. rewrite update_at_app, <- app_assoc. reflexivity. }
    replace (S (length done)) with (length (done ++ [c]))
      by (rewrite length_app; cbn; lia).
    rewrite (IH _ _ Hrow') by (rewrite length_app; cbn; lia).
    rewrite update_at_twice, <- app_assoc. reflexivity.
Qed.

Lemma fill_row_spec (d : Document) (i : nat) (row : list pystr)
  (g : list (list pystr)) :
  nth_error g i = Some (repeat [] cols) ->
  length row <= cols ->
  fill_row (length d) i row (d ++ [Table g])
  = d ++ [Table (update_at i (fun _ => pad_row cols row) g)].
Proof.
  intros Hrow Hlen. unfold fill_row, enumerate.
  apply (@fill_cells d i row [] g).
  - cbn. now rewrite Nat.sub_0_r.
  - cbn. lia.
Qed.

(** The outer loop, started at row [length pre]. *)
Lemma fill_rows (d : Document) (rest : list (list pystr)) :
  forall pre : list (list pystr),
    Forall (fun row => length row <= cols) rest ->
    fold_left (fun d' (item : nat * list pystr) =>
                 let '(i, row_data) := item in
                 fill_row (length d) i row_data d')
              (combine (seq (length pre) (length rest)) rest)
              (d ++ [Table (pre ++ repeat (repeat [] cols) (length rest))])
    = d ++ [Table (pre ++ map (pad_row cols) rest)].
Proof.
  induction rest as [|row rest IH]; intros pre Hall.
  - reflexivity.
  - inversion Hall as [|? ? Hrow Hrest]; subst.
    cbn [length seq combine fold_left repeat map].
    rewrite fill_row_spec; [| |assumption].
    + rewrite update_at_app.
      replace (S (length pre)) with (length (pre ++ [pad_row cols row]))
        by (rewrite length_app; cbn; lia).
      replace (pre ++ pad_row cols row :: repeat (repeat [] cols) (length rest))
        with ((pre ++ [pad_row cols row])
              ++ repeat (repeat [] cols) (length rest))
        by (rewrite <- app_assoc; reflexivity).
      rewrite IH by assumption. rewrite <- app_assoc. reflexivity.
    + rewrite nth_error_app2 by lia. now rewrite Nat.sub_diag.
Qed.

Lemma fill_table_spec (d : Document) (clean_data : list (list pystr)) :
  Forall (fun row => length row <= cols) clean_data ->
  fill_table (length d) clean_data
    (d ++ [Table (repeat (repeat [] cols) (length clean_data))])
  = d ++ [Table (map (pad_row cols) clean_data)].
Proof.
  intros Hall. unfold fill_table, enumerate.
  apply (@fill_rows d clean_data [] Hall).
Qed.

End Fill.

(** ** Rendering a table *)

Lemma fold_max_list_max (l : list nat) (a : nat) :
  fold_left Nat.max l a = Nat.max a (list_max l).
Proof.
  revert a. induction l as [|x l IH]; intros a; cbn [fold_left list_max fold_right].
  - lia.
  - rewrite IH. fold (list_max l). lia.
Qed.

Lemma max_len_max_row_length {A} (rows : list (list A)) :
  max_len rows = max_row_length rows.
Proof.
  unfold max_len, max_row_length. rewrite fold_max_list_max. lia.
Qed.

Lemma rows_within_max {A} (rows : list (list A)) :
  Forall (fun row => length row <= max_row_length rows) rows.
Proof.
  unfold max_row_length.
  assert (H : Forall (fun k => k <= list_max (map (@length A) rows))
                     (map (@length A) rows)).
  { apply list_max_le. lia. }
  rewrite Forall_map in H. exact H.
Qed.

Lemma max_row_length_map {A B} (f : A -> B) (rows : list (list A)) :
  max_row_length (map (map f) rows) = max_row_length rows.
Proof.
  unfold max_row_length. rewrite map_map. f_equal.
  apply map_ext. intros row. apply length_map.
Qed.


Section Rendering.

Variable U : Unicode.

Lemma clean_cell_rendered (c : cell) : clean_cell U c = rendered_cell U c.
Proof. destruct c; reflexivity. Qed.

Lemma clean_data_rendered (t : RawTable) :
  map (map (clean_cell U)) t = map (map (rendered_cell U)) t.
Proof.
  apply map_ext. intros row. apply map_ext. apply clean_cell_rendered.
Qed.




Lemma has_meaningful_content_accepted (t : RawTable) :
  has_meaningful_content U t = ret (accepted U t).
Proof.
  unfold accepted. rewrite has_meaningful_content_value.
  destruct (_ && _ && _); reflexivity.
Qed.

Lemma accepted_nil : accepted U [] = false.
Proof. reflexivity. Qed.

Lemma accepted_has_filled_cell (t : RawTable) :
  accepted U t = true ->
  exists row c, In row t /\ In c row /\ filled U c = true.
Proof.
  unfold accepted. rewrite has_meaningful_content_value.
  destruct (truthy t && (0 <? total_cells t)%N
            && float_ge (round_div (filled_cells U t) (total_cells t))
                        float_0_3) eqn:E; [|discriminate].
  intros _. apply andb_true_iff in E as [_ E].
  destruct (N.eq_dec (filled_cells U t) 0) as [Hz|Hnz].
  { rewrite Hz in E. vm_compute in E. discriminate. }
  unfold filled_cells in Hnz.
  destruct (filter (filled U) (concat t)) as [|c l] eqn:Hf;
    [cbn in Hnz; lia|].
  assert (Hin : In c (filter (filled U) (concat t)))
    by (rewrite Hf; now left).
  apply filter_In in Hin as [Hin Hc].
  apply in_concat in Hin as (row & Hrow & Hcr).
  now exists row, c.
Qed.

Lemma accepted_any_content (t : RawTable) :
  accepted U t = true ->
  existsb (existsb (@truthy pychar)) (map (map (clean_cell U)) t) = true.
Proof.
  intros Hacc.
  destruct (accepted_has_filled_cell t Hacc) as (row & c & Hrow & Hc & Hf).
  apply existsb_exists. exists (map (clean_cell U) row).
  split; [now apply in_map|].
  apply existsb_exists. exists (clean_cell U c).
  split; [now apply in_map|].
  now rewrite clean_cell_rendered.
Qed.

Lemma add_table_to_document_rendered (d : Document) (t : RawTable) :
  accepted U t = true ->
  truthy (hd [] t) = true ->
  add_table_to_document U d t = d ++ table_blocks U t.
Proof.
  intros Hacc Hhd. unfold add_table_to_document.
  destruct t as [|row t]; [discriminate|].
  cbn [hd] in Hhd. cbn [truthy negb orb hd]. rewrite Hhd. cbn [negb].
  rewrite (accepted_any_content _ Hacc). cbn [negb].
  set (clean_data := map (map (clean_cell U)) (row :: t)).
  assert (Hmax : max_len clean_data = max_row_length (row :: t)).
  { unfold clean_data.
    now rewrite max_len_max_row_length, max_row_length_map. }
  assert (Htruthy : truthy clean_data = true) by reflexivity.
  rewrite Htruthy, Hmax.
  assert (Hpos : 0 < max_row_length (row :: t)).
  { pose proof (rows_within_max (row :: t)) as Hall.
    inversion Hall as [|? ? Hrow _]; subst.
    destruct row; [discriminate | cbn [length] in Hrow; lia]. }
  destruct (Nat.eqb_spec (max_row_length (row :: t)) 0); [lia|].
  unfold add_table, add_paragraph. cbn [fst].
  rewrite fill_table_spec.
  - unfold table_blocks, padded_table, clean_data.
    rewrite clean_data_rendered, <- app_assoc. reflexivity.
  - rewrite <- Hmax, max_len_max_row_length. apply rows_within_max.
Qed.

Lemma add_table_to_document_headless (d : Document) (t : RawTable) :
  truthy (hd [] t) = false -> add_table_to_document U d t = d.
Proof.
  intros Hhd. unfold add_table_to_document. rewrite Hhd.
  now rewrite orb_true_r.
Qed.

End Rendering.

(** ** The document builder *)

Lemma forE_invariant {A S} (P : S -> Prop) (body : S -> A -> Exc S)
  (xs : list A) :
  (forall s x s', P s -> body s x = ret s' -> P s') ->
  forall s s', P s -> forE body xs s = ret s' -> P s'.
Proof.
  intros Hbody. induction xs as [|x xs IH]; intros s s' Hs Hrun.
  - cbn in Hrun. injection Hrun as <-. exact Hs.
  - cbn [forE] in Hrun. destruct (body s x) as [e|s1] eqn:E;
      [discriminate|].
    cbn [bind] in Hrun. eapply IH; [|exact Hrun].
    eapply Hbody; [exact Hs | exact E].
Qed.

Section Builder.

Variable U : Unicode.

Lemma text_only_app (d : Document) (b : Block) :
  text_only d -> is_text_block b = true -> text_only (d ++ [b]).
Proof.
  unfold text_only. intros Hd Hb. rewrite forallb_app, Hd. cbn.
  now rewrite Hb.
Qed.

Lemma text_only_add_run (p : nat) (s : pystr) (d : Document) :
  text_only d -> text_only (add_run p s d).
Proof.
  unfold text_only, add_run. apply forallb_update_at.
  intros [ | | | ]; auto.
Qed.

Lemma append_text_text_only (text_lines : list pystr) (i : nat)
  (line : pystr) (st st' : LoopState) :
  text_only (doc st) ->
  append_text U text_lines i line st = ret st' ->
  text_only (doc st').
Proof.
  intros Hst. unfold append_text.
  assert (Hpd : text_only
                  (fst match current_paragraph st with
                       | Some p => (doc st, p)
                       | None => add_paragraph (doc st)
                       end)).
  { destruct (current_paragraph st); cbn [fst add_paragraph];
      [assumption | now apply text_only_app]. }
  destruct (match current_paragraph st with
            | Some p => (doc st, p)
            | None => add_paragraph (doc st)
            end) as [d p].
  cbn [fst] in Hpd.
  assert (Hd : text_only (if truthy (paragraph_text p d)
                          then add_run p (lit " " ++ line) d
                          else add_run p line d)).
  { destruct (truthy (paragraph_text p d)); now apply text_only_add_run. }
  destruct (ends_sentence line).
  - destruct (next_starts_paragraph U (next_line_of U text_lines i))
      as [e|[|]]; cbn [bind]; intros H; try discriminate;
      injection H as <-; exact Hd.
  - intros H. injection H as <-. exact Hd.
Qed.

Lemma process_line_text_only (text_lines : list pystr)
  (st : LoopState) (item : nat * pystr) (st' : LoopState) :
  text_only (doc st) ->
  process_line U text_lines st item = ret st' ->
  text_only (doc st').
Proof.
  intros Hst. destruct item as [i raw]. rewrite process_line_classify.
  destruct (classify U (strip U raw)) as [e|c]; [discriminate|].
  cbn [bind]. destruct c; cbn [perform].
  - destruct (truthy (strip U raw)); [|destruct (current_paragraph st)];
      intros H; injection H as <-; exact Hst.
  - intros H. injection H as <-. now apply text_only_app.
  - intros H. injection H as <-. now apply text_only_app.
  - intros H. injection H as <-. now apply text_only_app.
  - now apply append_text_text_only.
Qed.

Lemma process_text_content_text_only (text_lines : list pystr)
  (d : Document) :
  process_text_content U [] text_lines = ret d -> text_only d.
Proof.
  unfold process_text_content.
  destruct (text_loop U [] text_lines) as [e|st] eqn:E; [discriminate|].
  cbn [bind]. intros H. injection H as <-.
  unfold text_loop in E.
  eapply forE_invariant
    with (P := fun s => text_only (doc s))
         (s := {| doc := []; current_paragraph := None |});
    [|reflexivity|exact E].
  intros s x s'. apply process_line_text_only.
Qed.

Lemma keep_table (t : RawTable) (all_tables : list RawTable) :
  (keep <- ret (truthy t) &&& has_meaningful_content U t ;;
   if keep then ret (all_tables ++ [t]) else ret all_tables)
  = ret (if accepted U t then all_tables ++ [t] else all_tables).
Proof.
  rewrite has_meaningful_content_accepted.
  destruct t as [|row t]; [reflexivity|].
  unfold andE. cbn [truthy bind ret].
  destruct (accepted U (row :: t)); reflexivity.
Qed.

(** The loop over the tables of a page keeps the accepted ones. *)
Lemma collect_tables (ts : list RawTable) (all_tables : list RawTable) :
  forE (fun all_tables table_data =>
          keep <- ret (truthy table_data)
                  &&& has_meaningful_content U table_data ;;
          if keep then ret (all_tables ++ [table_data])
          else ret all_tables)
       ts all_tables
  = ret (all_tables ++ filter (accepted U) ts).
Proof.
  revert all_tables. induction ts as [|t ts IH]; intros all_tables.
  - cbn [forE filter]. now rewrite app_nil_r.
  - cbn [forE filter]. rewrite keep_table, bind_ret, IH.
    destruct (accepted U t); [|reflexivity].
    now rewrite <- app_assoc.
Qed.

Lemma collect_page_value (ls : list pystr) (ts : list RawTable)
  (page : PageContent) :
  collect_page U (ls, ts) page
  = ret (ls ++ split_on newline (text page),
         ts ++ filter (accepted U) (tables page)).
Proof.
  unfold collect_page. rewrite collect_tables. reflexivity.
Qed.

Lemma collect_pages (content : list PageContent)
  (ls : list pystr) (ts : list RawTable) :
  forE (collect_page U) content (ls, ts)
  = ret (ls ++ all_lines content,
         ts ++ filter (accepted U) (all_raw_tables content)).
Proof.
  revert ls ts. induction content as [|page content IH]; intros ls ts.
  - cbn. now rewrite !app_nil_r.
  - cbn [forE]. rewrite collect_page_value, bind_ret, IH.
    unfold all_lines, all_raw_tables. cbn [flat_map].
    now rewrite filter_app, <- !app_assoc.
Qed.

(** Tables are appended one after the other; a table whose first row is
    empty adds nothing. *)
Lemma add_tables (ts : list RawTable) (d : Document) :
  Forall (fun t => accepted U t = true) ts ->
  fold_left (add_table_to_document U) ts d
  = d ++ flat_map (table_blocks U)
                  (filter (fun t => truthy (hd [] t)) ts).
Proof.
  intros Hall. revert d. induction Hall as [|t ts Ht _ IH]; intros d.
  - cbn. now rewrite app_nil_r.
  - cbn [fold_left filter]. rewrite IH.
    destruct (truthy (hd [] t)) eqn:Hhd.
    + rewrite add_table_to_document_rendered by assumption.
      cbn [flat_map]. now rewrite <- app_assoc.
    + now rewrite add_table_to_document_headless.
Qed.

Lemma filter_rendered (ts : list RawTable) :
  filter (fun t => truthy (hd [] t)) (filter (accepted U) ts)
  = filter (rendered U) ts.
Proof.
  induction ts as [|t ts IH]; [reflexivity|].
  cbn [filter]. unfold rendered at 1.
  destruct (accepted U t); cbn [filter andb].
  - now rewrite IH.
  - exact IH.
Qed.

Lemma create_word_document_blocks (content : list PageContent) :
  exists text_blocks,
    process_text_content U [] (all_lines content) = ret text_blocks /\
    text_only text_blocks /\
    create_word_document U content
    = ret (text_blocks
           ++ flat_map (table_blocks U)
                       (filter (rendered U) (all_raw_tables content))).
Proof.
  destruct (process_text_content_returns U [] (all_lines content))
    as [text_blocks Htext].
  exists text_blocks. split; [exact Htext|].
  split; [now apply process_text_content_text_only with (all_lines content)|].
  unfold create_word_document. rewrite collect_pages, bind_ret.
  cbn [app]. rewrite Htext, bind_ret.
  rewrite add_tables, filter_rendered; [reflexivity|].
  apply Forall_forall. intros t Ht. now apply filter_In in Ht.
Qed.

End Builder.





(** ** Batches *)

Section Batch.

Variable U : Unicode.
Variable World : Type.
Variable path_exists : World -> pystr -> bool.
Variable pdf_pages : World -> pystr -> option (list RawPage).
Variable save : pystr -> Document -> World -> bool * World.
Variable path_stem : pystr -> pystr.
Variable path_join : pystr -> pystr -> pystr.
Variable output_folder : pystr.

Abbreviation valid := (valid_pdf U path_exists).
Abbreviation validate := (validate_pdf_files U path_exists).
Abbreviation extract := (extract_text_from_pdf U pdf_pages).
Abbreviation convert :=
  (convert_pdf_to_word U pdf_pages save path_stem path_join output_folder).
Abbreviation step :=
  (convert_step U pdf_pages save path_stem path_join output_folder).
Abbreviation batch :=
  (convert_all U path_exists pdf_pages save path_stem path_join
     output_folder).

Lemma validate_from (w : World) (pdf_files valid_pdfs : list pystr) :
  fold_left (fun valid_pdfs pdf_file =>
               if negb (endswith (str_lower U pdf_file) (lit ".pdf"))
               then valid_pdfs
               else if negb (path_exists w pdf_file) then valid_pdfs
               else valid_pdfs ++ [pdf_file])
            pdf_files valid_pdfs
  = valid_pdfs ++ filter (valid w) pdf_files.
Proof.
  revert valid_pdfs.
  induction pdf_files as [|p ps IH]; intros valid_pdfs; cbn [fold_left filter].
  - now rewrite app_nil_r.
  - rewrite IH. unfold valid_pdf at 2.
    destruct (endswith (str_lower U p) (lit ".pdf")),
      (path_exists w p); cbn [negb andb]; try reflexivity.
    now rewrite <- app_assoc.
Qed.

(** Validation keeps the valid paths, in their order. *)
Lemma validate_filter (w : World) (pdf_files : list pystr) :
  validate w pdf_files = filter (valid w) pdf_files.
Proof.
  unfold validate_pdf_files. now rewrite validate_from.
Qed.

Lemma extract_nothing (w : World) (p : pystr) :
  pdf_pages w p = None \/ pdf_pages w p = Some [] -> extract w p = [].
Proof.
  unfold extract_text_from_pdf. intros [-> | ->]; reflexivity.
Qed.

Lemma convert_nothing (w : World) (p : pystr) :
  extract w p = [] -> convert p w = (None, w).
Proof.
  unfold convert_pdf_to_word. intros ->. reflexivity.
Qed.

Lemma step_success (r : BatchResult) (w w' : World) (p out : pystr) :
  convert p w = (Some out, w') ->
  truthy out = true ->
  step (r, w) p
  = ({| successful := successful r + 1;
        failed := failed r;
        files := files r ++ [success_entry p out] |}, w').
Proof.
  intros Hc Hout. unfold convert_step. rewrite Hc.
  destruct out; [discriminate | reflexivity].
Qed.

Lemma step_failure (r : BatchResult) (w w' : World) (p : pystr) :
  convert p w = (None, w') ->
  step (r, w) p
  = ({| successful := successful r;
        failed := failed r + 1;
        files := files r ++ [failure_entry p] |}, w').
Proof.
  intros Hc. unfold convert_step. rewrite Hc. reflexivity.
Qed.

(** Each pass adds one entry, for the file at hand, and counts it once. *)
Lemma step_entry (r : BatchResult) (w : World) (p : pystr) :
  map pdf (files (fst (step (r, w) p))) = map pdf (files r) ++ [p]
  /\ (successful (fst (step (r, w) p)) + failed (fst (step (r, w) p))
      = successful r + failed r + 1)%N.
Proof.
  unfold convert_step.
  destruct (convert p w) as [[[|c out]|] w']; cbn [fst files successful failed];
    rewrite map_app; split; try reflexivity; lia.
Qed.

Lemma run_entries (ps : list pystr) :
  forall (r : BatchResult) (w : World),
    map pdf (files (fst (fold_left step ps (r, w))))
    = map pdf (files r) ++ ps
    /\ (successful (fst (fold_left step ps (r, w)))
        + failed (fst (fold_left step ps (r, w)))
        = successful r + failed r + N.of_nat (length ps))%N.
Proof.
  induction ps as [|p ps IH]; intros r w.
  - cbn [fold_left fst length]. rewrite app_nil_r. split; [reflexivity|lia].
  - cbn [fold_left].
    destruct (step_entry r w p) as [He Hc].
    destruct (step (r, w) p) as [r1 w1]. cbn [fst] in He, Hc.
    destruct (IH r1 w1) as [He1 Hc1].
    rewrite He1, Hc1, He, Hc, <- app_assoc. cbn [length].
    split; [reflexivity|lia].
Qed.

(** The entries of a batch are those of its valid paths, in input order,
    and every entry is counted once. *)
Lemma batch_entries (pdf_files : list pystr) (w : World) :
  map pdf (files (fst (batch pdf_files w))) = filter (valid w) pdf_files
  /\ (successful (fst (batch pdf_files w))
      + failed (fst (batch pdf_files w))
      = N.of_nat (length (filter (valid w) pdf_files)))%N.
Proof.
  unfold convert_all. rewrite validate_filter.
  destruct (filter (valid w) pdf_files) as [|p ps] eqn:E.
  - split; reflexivity.
  - cbn [truthy negb]. rewrite <- E.
    destruct (run_entries (filter (valid w) pdf_files)
                {| successful := 0; failed := 0; files := [] |} w)
      as [He Hc].
    rewrite He, Hc. split; [reflexivity | cbn; lia].
Qed.


(** C9: three valid files, the second of which converts to nothing (no
    page with text, a PDF that cannot be read, or any exception), give two
    success entries around one failure entry, in input order, with counts
    2 and 1; the files after the failure are still converted. *)
Theorem batch_isolates_failure (p1 p2 p3 out1 out3 : pystr)
  (w w1 w2 w3 : World) :
  filter (valid w) [p1; p2; p3] = [p1; p2; p3] ->
  convert p1 w = (Some out1, w1) ->
  truthy out1 = true ->
  convert p2 w1 = (None, w2) ->
  convert p3 w2 = (Some out3, w3) ->
  truthy out3 = true ->
  batch [p1; p2; p3] w
  = ({| successful := 2;
        failed := 1;
        files := [success_entry p1 out1; failure_entry p2;
                  success_entry p3 out3] |}, w3)
  /\ (forall p v, extract v p = [] -> convert p v = (None, v))
  /\ (forall p v, pdf_pages v p = None \/ pdf_pages v p = Some [] ->
                  extract v p = [])
  /\ (forall pdf_files v,
         map pdf (files (fst (batch pdf_files v)))
         = filter (valid v) pdf_files).
Proof.
  intros Hvalid H1 Ho1 H2 H3 Ho3.
  split; [|split; [|split]].
  - unfold convert_all. rewrite validate_filter, Hvalid.
    cbn [truthy negb fold_left].
    erewrite step_success; [|exact H1|exact Ho1].
    erewrite step_failure; [|exact H2].
    erewrite step_success; [|exact H3|exact Ho3].
    reflexivity.
  - intros p v. apply convert_nothing.
  - intros p v. apply extract_nothing.
  - intros pdf_files v. apply batch_entries.
Qed.

End Batch.



Lemma batch_isolates_failure_witness :
  fst (demo_convert_all [lit "a.pdf"; lit "b.pdf"; lit "c.pdf"] [])
  = {| successful := 2;
       failed := 1;
       files := [success_entry (lit "a.pdf") (lit "out/a.docx");
                 failure_entry (lit "b.pdf");
                 success_entry (lit "c.pdf") (lit "out/c.docx")] |}.
Proof.
  pose (d := [Paragraph [lit "Hello world"]]).
  pose (w1 := [(lit "out/a.docx", d)] : demo_world).
  pose (w3 := w1 ++ [(lit "out/c.docx", d)]).
  unfold demo_convert_all.
  rewrite (proj1 (@batch_isolates_failure basic_latin demo_world
                    demo_exists demo_pages demo_save demo_stem demo_join
                    (lit "out") (lit "a.pdf") (lit "b.pdf") (lit "c.pdf")
                    (lit "out/a.docx") (lit "out/c.docx") [] w1 w1 w3
                    ltac:(vm_compute; reflexivity)
                    ltac:(vm_compute; reflexivity)
                    ltac:(reflexivity)
                    ltac:(vm_compute; reflexivity)
                    ltac:(vm_compute; reflexivity)
                    ltac:(reflexivity))).
  reflexivity.
Defined.

(** ** Totality of the engine *)



Lemma create_word_document_returns (U : Unicode)
  (content : list PageContent) :
  returns (create_word_document U content).
Proof.
  destruct (create_word_document_blocks U content) as (tb & _ & _ & ->).
  apply returns_ret.
Qed.


(** * Further properties *)

(** ** Trimming *)

Section TrimmingFacts.

Variable U : Unicode.

Lemma lstrip_no_leading_space (s : pystr) :
  no_leading_space U (lstrip U s).
Proof.
  induction s as [|c s IH]; cbn; [exact I|].
  destruct (isspace_c U c) eqn:E; [exact IH | exact E].
Qed.

Lemma lstrip_fixed (s : pystr) : no_leading_space U s -> lstrip U s = s.
Proof.
  destruct s as [|c s]; cbn; [reflexivity|]. now intros ->.
Qed.

(** What [lstrip] removes is white space. *)
Lemma lstrip_split (s : pystr) :
  exists sp, s = sp ++ lstrip U s /\ forallb (isspace_c U) sp = true.
Proof.
  induction s as [|c s (sp & Hs & Hsp)]; cbn.
  - now exists [].
  - destruct (isspace_c U c) eqn:E.
    + exists (c :: sp). cbn. rewrite E, Hsp. now rewrite <- Hs.
    + now exists [].
Qed.

Lemma rstrip_split (s : pystr) :
  exists sp, s = rstrip U s ++ sp /\ forallb (isspace_c U) sp = true.
Proof.
  unfold rstrip. destruct (lstrip_split (rev s)) as (sp & Hs & Hsp).
  exists (rev sp). split.
  - rewrite <- rev_app_distr, <- Hs. now rewrite rev_involutive.
  - rewrite forallb_forall in *. intros x Hx. apply Hsp.
    now apply in_rev.
Qed.

Lemma rstrip_no_trailing_space (s : pystr) :
  no_trailing_space U (rstrip U s).
Proof.
  unfold no_trailing_space, rstrip. rewrite rev_involutive.
  apply lstrip_no_leading_space.
Qed.

Lemma rstrip_keeps_head (s : pystr) :
  no_leading_space U s -> no_leading_space U (rstrip U s).
Proof.
  intros Hs. destruct (rstrip_split s) as (sp & Heq & _).
  destruct (rstrip U s) as [|c r]; [exact I|].
  rewrite Heq in Hs. exact Hs.
Qed.

Lemma rstrip_fixed (s : pystr) : no_trailing_space U s -> rstrip U s = s.
Proof.
  intros Hs. unfold rstrip. rewrite lstrip_fixed by exact Hs.
  apply rev_involutive.
Qed.

Lemma strip_no_space (s : pystr) :
  no_leading_space U (strip U s) /\ no_trailing_space U (strip U s).
Proof.
  unfold strip. split.
  - apply rstrip_keeps_head, lstrip_no_leading_space.
  - apply rstrip_no_trailing_space.
Qed.

Lemma strip_fixed (s : pystr) :
  no_leading_space U s -> no_trailing_space U s -> strip U s = s.
Proof.
  intros Hl Ht. unfold strip. rewrite lstrip_fixed by exact Hl.
  now apply rstrip_fixed.
Qed.

Lemma strip_idempotent (s : pystr) : strip U (strip U s) = strip U s.
Proof.
  destruct (strip_no_space s). now apply strip_fixed.
Qed.

Lemma strip_trimmed (s : pystr) :
  strip U s <> [] -> trimmed U (strip U s).
Proof.
  intros Hne. destruct (strip_no_space s). now repeat split.
Qed.

(** What [strip] keeps is a contiguous part of the string, between white
    space. *)
Lemma strip_split (s : pystr) :
  exists before after,
    s = before ++ strip U s ++ after
    /\ forallb (isspace_c U) before = true
    /\ forallb (isspace_c U) after = true.
Proof.
  destruct (lstrip_split s) as (before & Hs & Hb).
  destruct (rstrip_split (lstrip U s)) as (after & Hl & Ha).
  exists before, after. unfold strip. now rewrite <- Hl.
Qed.

End TrimmingFacts.

(** ** The line tests *)

Lemma startswith_nil (s : pystr) : startswith s [] = true.
Proof. destruct s; reflexivity. Qed.

Lemma endswith_single (line : pystr) (a : pychar) :
  endswith line [a] = true <-> exists s, line = s ++ [a].
Proof.
  unfold endswith. cbn [rev app].
  destruct (rev line) as [|h r] eqn:E.
  - cbn. split; [discriminate|]. intros (s & ->).
    rewrite rev_app_distr in E. discriminate.
  - cbn [startswith]. rewrite startswith_nil, andb_true_r. unfold chr_eqb.
    rewrite N.eqb_eq. split.
    + intros ->. exists (rev r).
      rewrite <- (rev_involutive line), E. reflexivity.
    + intros (s & ->). rewrite rev_app_distr in E. cbn in E.
      now injection E.
Qed.

Lemma endswith_single_other (line : pystr) (a b : pychar) :
  endswith line [a] = true -> a <> b -> endswith line [b] = false.
Proof.
  intros Ha Hab. destruct (endswith line [b]) eqn:Hb; [|reflexivity].
  apply endswith_single in Ha as (s & ->).
  apply endswith_single in Hb as (s' & Hs').
  apply app_inj_tail in Hs' as [_ ->]. contradiction.
Qed.

(** X1: a main title has fewer than 100 characters, and one that ends with a
    full stop or a comma is written in capitals: the bound of 150 never
    decides. *)
Theorem main_title_is_short (U : Unicode) (line : pystr) :
  is_main_title U line = ret true ->
  line <> []
  /\ length line < 100
  /\ (str_isupper U line = true /\ length line < 80
      \/ endswith line (lit ".") = false
         /\ endswith line (lit ",") = false
         /\ any_word_in_lower U title_words line = true).
Proof.
  unfold is_main_title. destruct line as [|c s]; [discriminate|].
  cbn [truthy negb orb].
  destruct (150 <? length (c :: s)); [discriminate|].
  destruct (Nat.ltb_spec (length (c :: s)) 80) as [H80|H80];
    cbn [andb].
  - destruct (str_isupper U (c :: s)) eqn:Hup.
    + intros _. split; [discriminate|]. split; [lia|]. left. now split.
    + exc_simpl.
      destruct (Nat.ltb_spec (length (c :: s)) 100) as [H100|H100];
        [|discriminate].
      destruct (endswith (c :: s) (lit ".")); [discriminate|].
      destruct (endswith (c :: s) (lit ",")); [discriminate|].
      cbn [negb]. destruct (isupper_c U c); [|discriminate].
      destruct (any_word_in_lower U title_words (c :: s)); [|discriminate].
      intros _. split; [discriminate|]. split; [exact H100|]. now right.
  - exc_simpl.
    destruct (Nat.ltb_spec (length (c :: s)) 100) as [H100|H100];
      [|discriminate].
    destruct (endswith (c :: s) (lit ".")); [discriminate|].
    destruct (endswith (c :: s) (lit ",")); [discriminate|].
    cbn [negb]. destruct (isupper_c U c); [|discriminate].
    destruct (any_word_in_lower U title_words (c :: s)); [|discriminate].
    intros _. split; [discriminate|]. split; [exact H100|]. now right.
Qed.

Lemma main_title_is_short_witness :
  is_main_title basic_latin overview_line = ret true
  /\ length overview_line < 100.
Proof.
  assert (H : is_main_title basic_latin overview_line = ret true)
    by (vm_compute; reflexivity).
  split; [exact H|].
  exact (proj1 (proj2 (@main_title_is_short basic_latin overview_line H))).
Defined.

(** X2: a subtitle starts with an uppercase character, has fewer than 120
    characters and ends with neither a full stop nor a comma. *)
Theorem subtitle_shape (U : Unicode) (line : pystr) :
  is_subtitle U line = ret true ->
  (exists c s, line = c :: s /\ isupper_c U c = true)
  /\ length line < 120
  /\ endswith line (lit ".") = false
  /\ endswith line (lit ",") = false
  /\ (endswith line (lit "?") = true
      \/ any_word_in_lower U subtitle_words line = true).
Proof.
  unfold is_subtitle. destruct line as [|c s]; [discriminate|].
  cbn [truthy negb orb].
  destruct (120 <? length (c :: s)); [discriminate|].
  exc_simpl.
  destruct (Nat.ltb_spec (length (c :: s)) 120) as [H120|H120];
    [|discriminate].
  destruct (isupper_c U c) eqn:Hup; [|discriminate].
  destruct (endswith (c :: s) (lit "?")) eqn:Hq.
  - intros _. split; [now exists c, s|]. split; [exact H120|].
    split; [|split; [|now left]];
      apply (endswith_single_other _ Hq); discriminate.
  - destruct (endswith (c :: s) (lit ".")); [discriminate|].
    destruct (endswith (c :: s) (lit ",")); [discriminate|].
    cbn [negb andb].
    destruct (any_word_in_lower U subtitle_words (c :: s)); [|discriminate].
    intros _. split; [now exists c, s|]. split; [exact H120|].
    split; [reflexivity|]. split; [reflexivity|now right].
Qed.

Lemma subtitle_shape_witness :
  is_subtitle basic_latin (question_line 117) = ret true
  /\ length (question_line 117) < 120.
Proof.
  assert (H : is_subtitle basic_latin (question_line 117) = ret true)
    by (vm_compute; reflexivity).
  split; [exact H|].
  exact (proj1 (proj2 (@subtitle_shape basic_latin (question_line 117) H))).
Defined.

Lemma digit_dot_prefix (c : pychar) (rest : pystr) :
  existsb (startswith (c :: rest)) digit_dot_prefixes
  = in_range 48 57 c && startswith rest [46%N].
Proof.
  unfold digit_dot_prefixes. cbn [seq map existsb].
  cbn [startswith]. unfold chr_eqb, in_range.
  repeat match goal with
         | |- context [(48 + N.of_nat ?k)%N] =>
             let v := eval vm_compute in (48 + N.of_nat k)%N in
             change (48 + N.of_nat k)%N with v
         end.
  destruct (startswith rest [46%N]).
  - rewrite !andb_true_r, orb_false_r.
    repeat match goal with
           | |- context [N.eqb c ?n] => destruct (N.eqb_spec c n)
           end;
      destruct (N.leb_spec 48 c), (N.leb_spec c 57); cbn; try reflexivity;
      lia.
  - rewrite !andb_false_r. reflexivity.
Qed.

Lemma glyph_prefix (c : pychar) (rest : pystr) :
  existsb (startswith (c :: rest)) bullet_markers
  = existsb (chr_eqb c) glyph_markers.
Proof.
  unfold bullet_markers, glyph_markers.
  change (lit "-") with [45%N]. change (lit "*") with [42%N].
  cbn [existsb startswith].
  now rewrite !startswith_nil, !andb_true_r.
Qed.

(** X3: a bullet line starts with one of the four glyphs, or with one ASCII
    digit and a full stop; a number of two digits is no bullet. *)
Theorem bullet_point_shape (line : pystr) :
  (is_bullet_point line = true
   <-> exists c rest,
         line = c :: rest
         /\ (In c glyph_markers
             \/ in_range 48 57 c = true
                /\ exists rest', rest = 46%N :: rest'))
  /\ (forall d1 d2 rest,
         in_range 48 57 d1 = true -> d2 <> 46%N ->
         is_bullet_point (d1 :: d2 :: rest) = false).
Proof.
  split.
  - unfold is_bullet_point. destruct line as [|c rest].
    + cbn. split; [discriminate|]. intros (c & rest & H & _). discriminate.
    + rewrite glyph_prefix, digit_dot_prefix, orb_true_iff, andb_true_iff.
      split.
      * intros [Hg | [Hd Hdot]]; exists c, rest; split; try reflexivity.
        -- left. apply existsb_exists in Hg as (m & Hin & Hm).
           apply N.eqb_eq in Hm. now subst.
        -- right. split; [exact Hd|].
           destruct rest as [|x r]; [discriminate|].
           cbn [startswith] in Hdot.
           rewrite startswith_nil, andb_true_r in Hdot.
           apply N.eqb_eq in Hdot. subst. now exists r.
      * intros (c' & rest' & Heq & H). injection Heq as <- <-.
        destruct H as [Hg | [Hd (r & ->)]].
        -- left. apply existsb_exists. exists c. split; [exact Hg|].
           apply N.eqb_refl.
        -- right. split; [exact Hd|].
           cbn [startswith]. now rewrite startswith_nil.
  - intros d1 d2 rest Hd Hdot. unfold is_bullet_point.
    rewrite glyph_prefix, digit_dot_prefix.
    apply orb_false_iff. split.
    + unfold glyph_markers, bullet_glyph, circle_glyph, chr_eqb, in_range
        in *. cbn [existsb].
      apply andb_true_iff in Hd as [H1 H2].
      apply N.leb_le in H1, H2.
      repeat match goal with
             | |- context [N.eqb d1 ?n] => destruct (N.eqb_spec d1 n)
             end; try reflexivity; lia.
    + cbn [startswith]. unfold chr_eqb.
      destruct (N.eqb_spec d2 46); [contradiction|].
      now rewrite andb_false_r.
Qed.

Lemma bullet_point_shape_witness :
  in_range 48 57 49%N = true /\ 48%N <> 46%N
  /\ is_bullet_point two_digit_line = false.
Proof.
  assert (H1 : in_range 48 57 49%N = true) by reflexivity.
  assert (H2 : 48%N <> 46%N) by discriminate.
  split; [exact H1|]. split; [exact H2|].
  exact (proj2 (bullet_point_shape two_digit_line) 49%N 48%N
           (lit ". tenth item") H1 H2).
Defined.

(** ** Cleaning a bullet line *)

Section CleanBullet.

Variable U : Unicode.

Lemma span_digits_app (s ds rest : pystr) :
  span_digits U s = (ds, rest) -> s = ds ++ rest.
Proof.
  revert ds rest. induction s as [|c s IH]; intros ds rest; cbn.
  - intros H. now injection H as <- <-.
  - destruct (isdecimal_c U c).
    + destruct (span_digits U s) as [ds' rest'].
      intros H. injection H as <- <-. cbn. f_equal. now apply IH.
    + intros H. now injection H as <- <-.
Qed.

Lemma match_numbering_split (line rest : pystr) :
  match_numbering U line = Some rest ->
  exists ds, ds <> [] /\ line = ds ++ 46%N :: rest.
Proof.
  unfold match_numbering.
  destruct (span_digits U line) as [[|d ds] [|dot r]] eqn:E;
    try discriminate.
  unfold chr_eqb. destruct (N.eqb_spec dot 46); [|discriminate].
  intros H. injection H as <-. subst dot.
  exists (d :: ds). split; [discriminate|]. now apply span_digits_app.
Qed.

Lemma find_glyph (c : pychar) (rest : pystr) :
  find (startswith (c :: rest)) bullet_markers = None
  <-> existsb (startswith (c :: rest)) bullet_markers = false.
Proof.
  split.
  - intros H. destruct (existsb _ _) eqn:E; [|reflexivity].
    apply existsb_exists in E as (m & Hin & Hm).
    now rewrite (find_none _ _ H m Hin) in Hm.
  - intros H. destruct (find _ _) as [m|] eqn:E; [|reflexivity].
    apply find_some in E as [Hin Hm].
    assert (Hex : existsb (startswith (c :: rest)) bullet_markers = true)
      by (apply existsb_exists; now exists m).
    congruence.
Qed.

(** X4: cleaning keeps a contiguous part of the line: it never adds or
    reorders characters. *)
Theorem clean_bullet_point_part (line : pystr) :
  exists before after,
    line = before ++ clean_bullet_point U line ++ after.
Proof.
  unfold clean_bullet_point.
  destruct (find (startswith line) bullet_markers) as [m|] eqn:Hfind.
  - destruct line as [|c rest].
    + apply find_some in Hfind as [Hin Hm].
      unfold bullet_markers in Hin. cbn in Hin.
      repeat (destruct Hin as [<- | Hin]; [discriminate Hm|]).
      contradiction.
    + cbn [tl]. destruct (strip_split U rest) as (b & a & Hr & _).
      exists (c :: b), a. cbn. now rewrite <- Hr.
  - destruct (match_numbering U line) as [rest|] eqn:Hnum.
    + apply match_numbering_split in Hnum as (ds & _ & ->).
      destruct (lstrip_split U rest) as (sp & Hr & _).
      exists (ds ++ 46%N :: sp), [].
      rewrite app_nil_r, <- app_assoc, <- app_comm_cons.
      do 2 f_equal. exact Hr.
    + exists [], []. cbn. now rewrite app_nil_r.
Qed.

Lemma strip_length (s : pystr) : length (strip U s) <= length s.
Proof.
  destruct (strip_split U s) as (b & a & Hs & _).
  rewrite Hs at 2. rewrite !length_app. lia.
Qed.

Lemma lstrip_length (s : pystr) : length (lstrip U s) <= length s.
Proof.
  destruct (lstrip_split U s) as (sp & Hs & _).
  rewrite Hs at 2. rewrite length_app. lia.
Qed.

(** X5: the text of a list item is shorter than its line, since the marker
    goes, and does not start with white space. *)
Theorem clean_bullet_point_shorter (line : pystr) :
  decimal_table_sane U ->
  is_bullet_point line = true ->
  length (clean_bullet_point U line) < length line
  /\ no_leading_space U (clean_bullet_point U line).
Proof.
  intros [Hdigits Hdot] Hb. unfold is_bullet_point in Hb.
  destruct line as [|c rest]; [discriminate|].
  unfold clean_bullet_point.
  destruct (find (startswith (c :: rest)) bullet_markers) as [m|] eqn:Hfind.
  - cbn [tl length]. split.
    + pose proof (strip_length rest). lia.
    + apply strip_no_space.
  - apply find_glyph in Hfind. rewrite Hfind in Hb. cbn [orb] in Hb.
    rewrite digit_dot_prefix in Hb. apply andb_true_iff in Hb as [Hc Hr].
    destruct rest as [|x r]; [discriminate|].
    cbn [startswith] in Hr. rewrite startswith_nil, andb_true_r in Hr.
    apply N.eqb_eq in Hr. subst x.
    unfold match_numbering. cbn [span_digits].
    rewrite (Hdigits c Hc), Hdot. unfold chr_eqb. cbn [N.eqb Pos.eqb].
    cbn [length]. split.
    + pose proof (lstrip_length r). lia.
    + apply lstrip_no_leading_space.
Qed.

End CleanBullet.

Lemma basic_latin_decimal_sane : decimal_table_sane basic_latin.
Proof. split; [intros c H; exact H | reflexivity]. Qed.

Lemma clean_bullet_point_shorter_witness :
  is_bullet_point numbered_line = true
  /\ length (clean_bullet_point basic_latin numbered_line)
     < length numbered_line.
Proof.
  assert (H : is_bullet_point numbered_line = true) by reflexivity.
  split; [exact H|].
  exact (proj1 (@clean_bullet_point_shorter basic_latin numbered_line
                  basic_latin_decimal_sane H)).
Defined.

(** ** What the paragraph loop builds *)

Lemma forE_invariant_in {A S} (P : S -> Prop) (body : S -> A -> Exc S)
  (xs : list A) :
  (forall s x s', In x xs -> P s -> body s x = ret s' -> P s') ->
  forall s s', P s -> forE body xs s = ret s' -> P s'.
Proof.
  induction xs as [|x xs IH]; intros Hbody s s' Hs Hrun.
  - cbn in Hrun. injection Hrun as <-. exact Hs.
  - cbn [forE] in Hrun. destruct (body s x) as [e|s1] eqn:E;
      [discriminate|].
    cbn [bind] in Hrun. eapply IH; [| |exact Hrun].
    + intros t y t' Hy. apply Hbody. now right.
    + eapply Hbody; [now left | exact Hs | exact E].
Qed.

Lemma forE_growth {A S} (size : S -> nat) (body : S -> A -> Exc S)
  (xs : list A) :
  (forall s x s', body s x = ret s' -> size s' <= size s + 1) ->
  forall s s', forE body xs s = ret s' -> size s' <= size s + length xs.
Proof.
  intros Hbody. induction xs as [|x xs IH]; intros s s' Hrun.
  - cbn in Hrun. injection Hrun as <-. cbn. lia.
  - cbn [forE] in Hrun. destruct (body s x) as [e|s1] eqn:E;
      [discriminate|].
    cbn [bind] in Hrun. apply IH in Hrun. apply Hbody in E.
    cbn [length]. lia.
Qed.

Lemma length_update_at {A} (i : nat) (f : A -> A) (l : list A) :
  length (update_at i f l) = length l.
Proof.
  revert i. induction l as [|x l IH]; intros [|i]; cbn; auto.
Qed.

Lemma concat_runs_join (sep first : pystr) (rest : list pystr) :
  concat (first :: map (app sep) rest) = join sep (first :: rest).
Proof.
  revert first. induction rest as [|l rest IH]; intros first.
  - cbn. apply app_nil_r.
  - change (join sep (first :: l :: rest))
      with (first ++ sep ++ join sep (l :: rest)).
    rewrite <- IH. cbn [map concat]. now rewrite <- app_assoc.
Qed.

Section LoopFacts.

Variable U : Unicode.
Variable text_lines : list pystr.
Variable d0 : Document.

Lemma stripped_input_line (raw : pystr) :
  In raw text_lines -> strip U raw <> [] ->
  input_line U text_lines (strip U raw).
Proof.
  intros Hin Hne. split; [now apply strip_trimmed | now apply in_map].
Qed.

Lemma invariant_add_block (st : LoopState) (b : Block) :
  loop_invariant U text_lines d0 st ->
  block_from_lines U text_lines b ->
  loop_invariant U text_lines d0
    {| doc := doc st ++ [b]; current_paragraph := None |}.
Proof.
  intros (added & Hdoc & Hall & _) Hb. exists (added ++ [b]).
  cbn [doc current_paragraph]. rewrite Hdoc, <- app_assoc.
  split; [reflexivity|]. split; [|exact I].
  apply Forall_app. split; [exact Hall | now constructor].
Qed.

Lemma invariant_close (st : LoopState) :
  loop_invariant U text_lines d0 st ->
  loop_invariant U text_lines d0 (close_paragraph st).
Proof.
  intros (added & Hdoc & Hall & _). exists added. now repeat split.
Qed.

Lemma append_text_invariant (i : nat) (line : pystr)
  (st st' : LoopState) :
  input_line U text_lines line ->
  loop_invariant U text_lines d0 st ->
  append_text U text_lines i line st = ret st' ->
  loop_invariant U text_lines d0 st'.
Proof.
  intros Hline (added & Hdoc & Hall & Hcur). unfold append_text.
  assert (Hstep :
    loop_invariant U text_lines d0
      (let '(d, p) := match current_paragraph st with
                      | Some p => (doc st, p)
                      | None => add_paragraph (doc st)
                      end in
       {| doc := if truthy (paragraph_text p d)
                 then add_run p (lit " " ++ line) d
                 else add_run p line d;
          current_paragraph := Some p |})).
  { destruct (current_paragraph st) as [p|].
    - destruct Hcur as (before & runs & -> & ->).
      apply Forall_app in Hall as [Hbefore Hpar].
      inversion Hpar as [|? ? Hblock _]; subst.
      cbn [block_from_lines] in Hblock.
      destruct Hblock as (first & rest & -> & Hruns).
      rewrite app_assoc in Hdoc.
      replace (length d0 + length before) with (length (d0 ++ before))
        by apply length_app.
      unfold paragraph_text, add_run.
      rewrite Hdoc, nth_error_last_object.
      assert (Hne : truthy (concat (first :: map (app (lit " ")) rest))
                    = true).
      { inversion Hruns as [|? ? [[Hf _] _] _]; subst.
        destruct first; [contradiction | reflexivity]. }
      rewrite Hne, update_at_app.
      exists (before ++ [Paragraph (first :: map (app (lit " "))
                                              (rest ++ [line]))]).
      cbn [doc current_paragraph].
      split; [rewrite <- app_assoc, map_app; reflexivity|].
      split.
      + apply Forall_app. split; [exact Hbefore|]. constructor; [|constructor].
        exists first, (rest ++ [line]). split; [reflexivity|].
        inversion Hruns; subst. constructor; [assumption|].
        apply Forall_app. split; [assumption | now constructor].
      + exists before, (first :: map (app (lit " ")) (rest ++ [line])).
        split; [reflexivity | now rewrite length_app].
    - unfold add_paragraph, paragraph_text, add_run.
      rewrite nth_error_last_object. cbn [concat truthy].
      rewrite update_at_app.
      exists (added ++ [Paragraph [line]]). cbn [doc current_paragraph].
      split; [now rewrite Hdoc, <- app_assoc|].
      split.
      + apply Forall_app. split; [exact Hall|]. constructor; [|constructor].
        exists line, []. split; [reflexivity | now constructor].
      + exists added, [line]. split; [reflexivity|].
        now rewrite Hdoc, length_app. }
  destruct (match current_paragraph st with
            | Some p => (doc st, p)
            | None => add_paragraph (doc st)
            end) as [d p].
  destruct (ends_sentence line).
  - destruct (next_starts_paragraph U (next_line_of U text_lines i))
      as [e|[|]]; cbn [bind]; intros H; try discriminate;
      injection H as <-; [now apply invariant_close | exact Hstep].
  - intros H. injection H as <-. exact Hstep.
Qed.

Lemma process_line_invariant (st : LoopState) (item : nat * pystr)
  (st' : LoopState) :
  In (snd item) text_lines ->
  loop_invariant U text_lines d0 st ->
  process_line U text_lines st item = ret st' ->
  loop_invariant U text_lines d0 st'.
Proof.
  destruct item as [i raw]. cbn [snd]. intros Hin Hst.
  unfold process_line.
  pose proof (stripped_input_line raw Hin) as Hline.
  destruct (strip U raw) as [|x s] eqn:E.
  - cbn [truthy negb]. destruct (current_paragraph st) eqn:Hc;
      intros H; injection H as <-; [now apply invariant_close | exact Hst].
  - cbn [truthy negb]. specialize (Hline ltac:(discriminate)).
    destruct (_ && _); [intros H; injection H as <-; exact Hst|].
    destruct (is_main_title_returns U (x :: s)) as [t ->].
    cbn [bind]. destruct t.
    { intros H. injection H as <-. apply invariant_add_block; [exact Hst|].
      split; [now left | exact Hline]. }
    destruct (is_subtitle_returns U (x :: s)) as [u ->].
    cbn [bind]. destruct u.
    { intros H. injection H as <-. apply invariant_add_block; [exact Hst|].
      split; [now right | exact Hline]. }
    destruct (is_bullet_point (x :: s)) eqn:Hb.
    { intros H. injection H as <-. apply invariant_add_block; [exact Hst|].
      now exists (x :: s). }
    now apply append_text_invariant.
Qed.

Lemma text_loop_invariant (st : LoopState) :
  text_loop U d0 text_lines = ret st ->
  loop_invariant U text_lines d0 st.
Proof.
  unfold text_loop. intros Hrun.
  eapply forE_invariant_in
    with (P := loop_invariant U text_lines d0)
         (s := {| doc := d0; current_paragraph := None |});
    [| |exact Hrun].
  - intros s [i raw] s' Hin. apply process_line_invariant.
    cbn [snd]. unfold enumerate in Hin. now apply in_combine_r in Hin.
  - exists []. cbn. rewrite app_nil_r. now repeat split.
Qed.

Lemma process_line_growth (st : LoopState) (item : nat * pystr)
  (st' : LoopState) :
  process_line U text_lines st item = ret st' ->
  length (doc st') <= length (doc st) + 1.
Proof.
  destruct item as [i raw]. rewrite process_line_classify.
  destruct (classify U (strip U raw)) as [e|c]; [discriminate|].
  cbn [bind]. destruct c; cbn [perform].
  - destruct (truthy (strip U raw)); [|destruct (current_paragraph st)];
      intros H; injection H as <-; cbn; lia.
  - intros H. injection H as <-. cbn. rewrite length_app. cbn. lia.
  - intros H. injection H as <-. cbn. rewrite length_app. cbn. lia.
  - intros H. injection H as <-. cbn. rewrite length_app. cbn. lia.
  - unfold append_text.
    assert (Hlen :
      length (fst match current_paragraph st with
                  | Some p => (doc st, p)
                  | None => add_paragraph (doc st)
                  end) <= length (doc st) + 1).
    { destruct (current_paragraph st); cbn [fst add_paragraph];
        [lia | rewrite length_app; cbn; lia]. }
    destruct (match current_paragraph st with
              | Some p => (doc st, p)
              | None => add_paragraph (doc st)
              end) as [d p].
    cbn [fst] in Hlen.
    assert (Hd : length (if truthy (paragraph_text p d)
                         then add_run p (lit " " ++ strip U raw) d
                         else add_run p (strip U raw) d)
                 <= length (doc st) + 1).
    { destruct (truthy (paragraph_text p d)); unfold add_run;
        now rewrite length_update_at. }
    destruct (ends_sentence (strip U raw)).
    + destruct (next_starts_paragraph U (next_line_of U text_lines i))
        as [e|[|]]; cbn [bind]; intros H; try discriminate;
        injection H as <-; exact Hd.
    + intros H. injection H as <-. exact Hd.
Qed.

End LoopFacts.

(** X6: the paragraph loop only appends: the blocks already in the document
    stay as they are, and each line adds at most one block. *)
Theorem process_text_content_appends (U : Unicode) (d : Document)
  (text_lines : list pystr) :
  exists added,
    process_text_content U d text_lines = ret (d ++ added)
    /\ length added <= length text_lines.
Proof.
  unfold process_text_content.
  destruct (text_loop_returns U d text_lines) as [st Hrun].
  rewrite Hrun, bind_ret.
  destruct (text_loop_invariant _ _ _ Hrun) as (added & Hdoc & _).
  exists added. rewrite Hdoc. split; [reflexivity|].
  unfold text_loop in Hrun.
  apply (forE_growth (fun s => length (doc s))) in Hrun.
  - cbn [doc] in Hrun. unfold enumerate in Hrun.
    rewrite Hdoc, length_app, length_combine, length_seq in Hrun. lia.
  - intros s x s'. apply process_line_growth.
Qed.

(** X7: every block the loop adds comes from the lines: a heading is a
    trimmed non-empty line, a list item a cleaned bullet line, and the
    text of a paragraph is its trimmed non-empty lines joined by single
    spaces; no block is a table. *)
Theorem process_text_content_blocks (U : Unicode) (d : Document)
  (text_lines : list pystr) :
  exists added,
    process_text_content U d text_lines = ret (d ++ added)
    /\ Forall (block_from_lines U text_lines) added
    /\ (forall runs,
           In (Paragraph runs) added ->
           exists ls,
             ls <> []
             /\ Forall (input_line U text_lines) ls
             /\ concat runs = join (lit " ") ls).
Proof.
  unfold process_text_content.
  destruct (text_loop_returns U d text_lines) as [st Hrun].
  rewrite Hrun, bind_ret.
  destruct (text_loop_invariant _ _ _ Hrun) as (added & Hdoc & Hall & _).
  exists added. rewrite Hdoc. split; [reflexivity|]. split; [exact Hall|].
  intros runs Hin. rewrite Forall_forall in Hall.
  destruct (Hall _ Hin) as (first & rest & -> & Hruns).
  exists (first :: rest). split; [discriminate|]. split; [exact Hruns|].
  apply concat_runs_join.
Qed.

(** ** White space around lines *)

Lemma forE_map {A B S} (body : S -> B -> Exc S) (g : A -> B)
  (xs : list A) (s : S) :
  forE body (map g xs) s = forE (fun s x => body s (g x)) xs s.
Proof.
  revert s. induction xs as [|x xs IH]; intros s; [reflexivity|].
  cbn [map forE]. destruct (body s (g x)); [reflexivity|]. cbn [bind].
  apply IH.
Qed.

Lemma forE_ext {A S} (body body' : S -> A -> Exc S) (xs : list A) (s : S) :
  (forall s x, body s x = body' s x) ->
  forE body xs s = forE body' xs s.
Proof.
  intros Hext. revert s. induction xs as [|x xs IH]; intros s;
    [reflexivity|].
  cbn [forE]. rewrite Hext. destruct (body' s x); [reflexivity|].
  cbn [bind]. apply IH.
Qed.

Lemma combine_map_r {A B C} (g : B -> C) (idx : list A) (l : list B) :
  combine idx (map g l) = map (fun p => (fst p, g (snd p))) (combine idx l).
Proof.
  revert idx. induction l as [|x l IH]; intros [|i idx]; cbn;
    try reflexivity.
  now rewrite IH.
Qed.

Section WhiteSpace.

Variable U : Unicode.

Lemma next_line_of_stripped (text_lines : list pystr) (i : nat) :
  next_line_of U (map (strip U) text_lines) i = next_line_of U text_lines i.
Proof.
  unfold next_line_of. rewrite length_map.
  destruct (i + 1 <? length text_lines); [|reflexivity].
  change (@nil pychar) with (strip U []) at 1.
  now rewrite map_nth, strip_idempotent.
Qed.

Lemma process_line_stripped (text_lines : list pystr) (st : LoopState)
  (i : nat) (raw : pystr) :
  process_line U (map (strip U) text_lines) st (i, strip U raw)
  = process_line U text_lines st (i, raw).
Proof.
  unfold process_line, append_text.
  now rewrite strip_idempotent, next_line_of_stripped.
Qed.

End WhiteSpace.

(** X8: white space around the lines plays no role: trimming every line
    beforehand gives the same document. *)
Theorem process_text_content_trims (U : Unicode) (d : Document)
  (text_lines : list pystr) :
  process_text_content U d (map (strip U) text_lines)
  = process_text_content U d text_lines.
Proof.
  unfold process_text_content, text_loop, enumerate.
  rewrite length_map, combine_map_r, forE_map.
  f_equal. apply forE_ext. intros s [i raw]. cbn [fst snd].
  apply process_line_stripped.
Qed.

(** ** Page numbers inside a paragraph *)

Section PageNumbers.

Variable U : Unicode.
Hypothesis Hsane : digit_table_sane U.

Lemma digits_not_upper (s : pystr) :
  forallb (isdigit_c U) s = true -> existsb (isupper_c U) s = false.
Proof.
  induction s as [|c s IH]; [reflexivity|]. cbn.
  intros H. apply andb_true_iff in H as [Hc Hs].
  destruct (Hsane c Hc) as [-> _]. now apply IH.
Qed.

Lemma digit_line_not_upper (s : pystr) :
  forallb (isdigit_c U) s = true -> str_isupper U s = false.
Proof.
  intros H. unfold str_isupper.
  destruct s as [|c [|c' s]].
  - reflexivity.
  - cbn in H. apply andb_true_iff in H as [Hc _].
    now destruct (Hsane c Hc) as [-> _].
  - rewrite (digits_not_upper _ H). apply andb_false_r.
Qed.

Lemma digit_line_no_bullet (c : pychar) (s : pystr) :
  forallb (isdigit_c U) (c :: s) = true -> is_bullet_point (c :: s) = false.
Proof.
  intros H. cbn in H. apply andb_true_iff in H as [Hc Hs].
  destruct (Hsane c Hc) as (_ & Hglyph & _).
  unfold is_bullet_point. rewrite glyph_prefix, digit_dot_prefix.
  apply orb_false_iff. split.
  - destruct (existsb (chr_eqb c) glyph_markers) eqn:Hg; [|reflexivity].
    apply existsb_exists in Hg as (m & Hin & Hm).
    apply N.eqb_eq in Hm. subst m. contradiction.
  - apply andb_false_iff. right.
    destruct s as [|x r]; [reflexivity|].
    cbn [startswith]. unfold chr_eqb.
    destruct (N.eqb_spec x 46) as [->|]; [|reflexivity].
    cbn in Hs. apply andb_true_iff in Hs as [Hdot _].
    destruct (Hsane 46%N Hdot) as (_ & _ & Hne). now contradiction Hne.
Qed.

End PageNumbers.

Lemma not_upper_no_main_title (U : Unicode) (c : pychar) (s : pystr) :
  isupper_c U c = false ->
  str_isupper U (c :: s) = false ->
  is_main_title U (c :: s) = ret false.
Proof.
  intros Hc Hup. unfold is_main_title. cbn [truthy negb orb].
  rewrite Hup, andb_false_r.
  destruct (150 <? length (c :: s)); [reflexivity|].
  exc_simpl. rewrite Hc.
  destruct (length (c :: s) <? 100); [|reflexivity].
  destruct (negb (endswith (c :: s) (lit "."))); [|reflexivity].
  destruct (negb (endswith (c :: s) (lit ","))); reflexivity.
Qed.

Lemma not_upper_no_subtitle (U : Unicode) (c : pychar) (s : pystr) :
  isupper_c U c = false -> is_subtitle U (c :: s) = ret false.
Proof.
  intros Hc. unfold is_subtitle. cbn [truthy negb orb].
  destruct (120 <? length (c :: s)); [reflexivity|].
  exc_simpl. rewrite Hc.
  destruct (length (c :: s) <? 120); reflexivity.
Qed.

(** X9: after a sentence, a following line of digits never closes the
    paragraph, and a page-number line (at most three digits) is skipped
    without touching the state: a paragraph runs on across a page
    number. *)
Theorem page_number_keeps_paragraph_open (U : Unicode)
  (text_lines : list pystr) (i : nat) (line : pystr) (st : LoopState) :
  digit_table_sane U ->
  ends_sentence line = true ->
  str_isdigit U (next_line_of U text_lines i) = true ->
  (exists st',
      append_text U text_lines i line st = ret st'
      /\ current_paragraph st' <> None)
  /\ (length (next_line_of U text_lines i) <= 3 ->
      forall raw st' j,
        strip U raw = next_line_of U text_lines i ->
        process_line U text_lines st' (j, raw) = ret st').
Proof.
  intros Hsane Hend Hdigits.
  unfold str_isdigit in Hdigits.
  apply andb_true_iff in Hdigits as [Hne Hall].
  split.
  - destruct (next_line_of U text_lines i) as [|c s] eqn:Hnext;
      [discriminate|].
    assert (Hc : isupper_c U c = false).
    { cbn in Hall. apply andb_true_iff in Hall as [Hc _].
      now destruct (Hsane c Hc). }
    assert (Hopen : next_starts_paragraph U (c :: s) = ret false).
    { apply next_starts_paragraph_other; [exact Hc | | |].
      - apply not_upper_no_main_title; [exact Hc|].
        now apply digit_line_not_upper.
      - now apply not_upper_no_subtitle.
      - now apply digit_line_no_bullet with U. }
    unfold append_text.
    destruct (match current_paragraph st with
              | Some p => (doc st, p)
              | None => add_paragraph (doc st)
              end) as [d p].
    rewrite Hend, Hnext, Hopen. cbn [bind].
    eexists. split; [reflexivity|]. cbn. discriminate.
  - intros Hlen raw st' j Hraw. unfold process_line. rewrite Hraw.
    rewrite Hne. cbn [negb]. unfold str_isdigit. rewrite Hne, Hall.
    cbn [andb]. apply Nat.leb_le in Hlen. now rewrite Hlen.
Qed.

Lemma basic_latin_digit_sane : digit_table_sane basic_latin.
Proof.
  intros c Hc. cbn in Hc. unfold in_range in Hc.
  apply andb_true_iff in Hc as [H1 H2]. apply N.leb_le in H1, H2.
  split; [|split].
  - cbn. unfold in_range. apply andb_false_iff. left.
    apply N.leb_gt. lia.
  - unfold glyph_markers, bullet_glyph, circle_glyph. cbn.
    intros [H|[H|[H|[H|[]]]]]; lia.
  - lia.
Qed.

Lemma page_number_keeps_paragraph_open_witness :
  ends_sentence sentence_line = true
  /\ str_isdigit basic_latin
       (next_line_of basic_latin
          [sentence_line; page_number_line; continues_line] 0) = true
  /\ exists st',
       append_text basic_latin
         [sentence_line; page_number_line; continues_line] 0
         sentence_line fresh_state = ret st'
       /\ current_paragraph st' <> None.
Proof.
  assert (H1 : ends_sentence sentence_line = true) by reflexivity.
  assert (H2 : str_isdigit basic_latin
                 (next_line_of basic_latin
                    [sentence_line; page_number_line; continues_line] 0)
               = true) by reflexivity.
  split; [exact H1|]. split; [exact H2|].
  exact (proj1 (@page_number_keeps_paragraph_open basic_latin
                  [sentence_line; page_number_line; continues_line] 0
                  sentence_line fresh_state basic_latin_digit_sane H1 H2)).
Defined.

(** ** Tables without the filter *)



Lemma filter_none {A} (f : A -> bool) (l : list A) :
  (forall x, In x l -> f x = false) -> filter f l = [].
Proof.
  induction l as [|x l IH]; intros H; [reflexivity|]. cbn.
  rewrite (H x) by now left. apply IH. intros y Hy. apply H. now right.
Qed.



(** ** The filter at the extremes *)

Lemma no_filled_cell (U : Unicode) (t : RawTable) :
  (forall row c, In row t -> In c row -> filled U c = false) ->
  filled_cells U t = 0%N.
Proof.
  intros Hnone. unfold filled_cells.
  rewrite filter_none; [reflexivity|]. intros c Hc.
  apply in_concat in Hc as (row & Hrow & Hin).
  now apply (Hnone row).
Qed.

Lemma all_filled_cells (U : Unicode) (t : RawTable) :
  (forall row c, In row t -> In c row -> filled U c = true) ->
  filled_cells U t = total_cells t.
Proof.
  intros Hall. unfold filled_cells, total_cells.
  replace (filter (filled U) (concat t)) with (concat t); [reflexivity|].
  symmetry. apply forallb_filter_id.
  apply forallb_forall. intros c Hc.
  apply in_concat in Hc as (row & Hrow & Hin). now apply (Hall row).
Qed.

(** X11: whatever its size, a table without a filled cell is rejected and a
    table with cells that are all filled is accepted. *)
Theorem filter_extremes (U : Unicode) (t : RawTable) :
  ((forall row c, In row t -> In c row -> filled U c = false) ->
   has_meaningful_content U t = ret false)
  /\ ((exists row c, In row t /\ In c row) ->
      (forall row c, In row t -> In c row -> filled U c = true) ->
      has_meaningful_content U t = ret true).
Proof.
  split.
  - intros Hnone. rewrite has_meaningful_content_value.
    rewrite (no_filled_cell _ _ Hnone).
    replace (float_ge (round_div 0 (total_cells t)) float_0_3) with false
      by reflexivity.
    now rewrite andb_false_r.
  - intros (row & c & Hrow & Hc) Hall.
    rewrite has_meaningful_content_value.
    rewrite (all_filled_cells _ _ Hall).
    assert (Hpos : (0 < total_cells t)%N).
    { unfold total_cells.
      assert (Hin : In c (concat t)) by (apply in_concat; now exists row).
      destruct (concat t); [contradiction | cbn; lia]. }
    assert (Ht : truthy t = true) by (destruct t; [contradiction | reflexivity]).
    rewrite Ht. apply N.ltb_lt in Hpos as Hpos'. rewrite Hpos'.
    cbn [andb]. rewrite ratio_test_accepts; [reflexivity|exact Hpos|lia|lia].
Qed.

Lemma filter_extremes_witness :
  has_meaningful_content basic_latin blank_table = ret false.
Proof.
  apply (proj1 (@filter_extremes basic_latin blank_table)).
  intros row c Hrow Hc. unfold blank_table in Hrow. cbn in Hrow.
  destruct Hrow as [<-|[<-|[]]]; cbn in Hc;
    destruct Hc as [<-|[<-|[]]]; reflexivity.
Defined.

(** ** Page boundaries *)

(** X12: the document depends on the pages only through the sequence of their
    lines and the sequence of their tables: where one page ends and the
    next begins plays no role, nor do the page numbers. *)
Theorem create_word_document_ignores_pages (U : Unicode)
  (content content' : list PageContent) :
  all_lines content = all_lines content' ->
  all_raw_tables content = all_raw_tables content' ->
  create_word_document U content = create_word_document U content'.
Proof.
  intros Hlines Htables.
  destruct (create_word_document_blocks U content)
    as (tb & Htext & _ & ->).
  destruct (create_word_document_blocks U content')
    as (tb' & Htext' & _ & ->).
  rewrite Hlines, Htext' in Htext. injection Htext as ->.
  now rewrite Htables.
Qed.

Lemma create_word_document_ignores_pages_witness :
  all_lines split_page = all_lines joined_page
  /\ all_raw_tables split_page = all_raw_tables joined_page
  /\ create_word_document basic_latin split_page
     = create_word_document basic_latin joined_page.
Proof.
  assert (H1 : all_lines split_page = all_lines joined_page)
    by reflexivity.
  assert (H2 : all_raw_tables split_page = all_raw_tables joined_page)
    by reflexivity.
  split; [exact H1|]. split; [exact H2|].
  exact (@create_word_document_ignores_pages basic_latin split_page
           joined_page H1 H2).
Defined.

(** X13: the lines of a text contain no newline, there is always at least one
    line, and joining the lines with newlines gives the text back. *)
Theorem split_lines_round_trip (s : pystr) :
  join [newline] (split_on newline s) = s
  /\ split_on newline s <> []
  /\ Forall (fun l => ~ In newline l) (split_on newline s).
Proof.
  induction s as [|c s (Hjoin & Hne & Hall)].
  - cbn. repeat split; [discriminate | repeat constructor; auto].
  - cbn [split_on]. unfold chr_eqb. destruct (N.eqb_spec c newline) as [->|Hc].
    + destruct (split_on newline s) as [|h t] eqn:E; [contradiction|].
      split; [|split; [discriminate|]].
      * change (join [newline] ([] :: h :: t))
          with ([] ++ [newline] ++ join [newline] (h :: t)).
        now rewrite Hjoin.
      * constructor; [intros [] | exact Hall].
    + destruct (split_on newline s) as [|h t] eqn:E; [contradiction|].
      split; [|split; [discriminate|]].
      * rewrite <- Hjoin. destruct t; reflexivity.
      * inversion Hall as [|? ? Hh Ht]; subst. constructor; [|exact Ht].
        intros [Heq|Hin]; [exact (Hc Heq) | contradiction].
Qed.

(** ** Extraction *)

Section Extraction.

Variable U : Unicode.

Lemma extract_fold (items : list (nat * RawPage))
  (pages_content : list PageContent) :
  fold_left (fun pages_content (item : nat * RawPage) =>
               let '(i, page) := item in
               match extract_text page with
               | Some ((_ :: _) as text) =>
                   pages_content ++
                   [{| page_number := i + 1;
                       text := strip U text;
                       tables := extract_tables page |}]
               | _ => pages_content
               end)
            items pages_content
  = pages_content ++ flat_map (page_entry U) items.
Proof.
  revert pages_content.
  induction items as [|[i page] items IH]; intros pages_content.
  - cbn. now rewrite app_nil_r.
  - cbn [fold_left flat_map]. rewrite IH. unfold page_entry at 2.
    cbn [fst snd]. destruct (extract_text page) as [[|c t]|];
      cbn [app]; try reflexivity.
    now rewrite <- app_assoc.
Qed.

Lemma in_page_entries (l : list RawPage) :
  forall (k : nat) (pc : PageContent),
    In pc (flat_map (page_entry U) (combine (seq k (length l)) l))
    <-> exists i page t,
          nth_error l i = Some page
          /\ extract_text page = Some t /\ t <> []
          /\ pc = {| page_number := k + i + 1;
                     text := strip U t;
                     tables := extract_tables page |}.
Proof.
  induction l as [|page l IH]; intros k pc.
  - cbn. split; [contradiction|]. intros ([|i] & ? & ? & H & _);
      discriminate.
  - cbn [length seq combine flat_map]. rewrite in_app_iff, IH. split.
    + intros [Hhead | (i & page' & t & Hnth & Ht & Hne & ->)].
      * unfold page_entry in Hhead. cbn [fst snd] in Hhead.
        destruct (extract_text page) as [[|c t]|] eqn:E;
          try contradiction.
        destruct Hhead as [<-|[]].
        exists 0, page, (c :: t). rewrite Nat.add_0_r.
        repeat split; [exact E | discriminate].
      * exists (S i), page', t. repeat split; try assumption.
        f_equal. lia.
    + intros ([|i] & page' & t & Hnth & Ht & Hne & ->).
      * left. cbn in Hnth. injection Hnth as <-.
        unfold page_entry. cbn [fst snd]. rewrite Ht.
        destruct t; [contradiction|]. left. now rewrite Nat.add_0_r.
      * right. exists i, page', t. repeat split; try assumption.
        f_equal. lia.
Qed.

Lemma page_entries_sorted (l : list RawPage) :
  forall k,
    StronglySorted lt
      (map page_number
         (flat_map (page_entry U) (combine (seq k (length l)) l))).
Proof.
  induction l as [|page l IH]; intros k; [constructor|].
  cbn [length seq combine flat_map]. rewrite map_app.
  assert (Hlater :
    Forall (lt (k + 1))
      (map page_number
         (flat_map (page_entry U) (combine (seq (S k) (length l)) l)))).
  { apply Forall_forall. intros n Hn.
    apply in_map_iff in Hn as (pc & <- & Hpc).
    apply in_page_entries in Hpc as (i & ? & ? & _ & _ & _ & ->).
    cbn. lia. }
  unfold page_entry at 1. cbn [fst snd].
  destruct (extract_text page) as [[|c t]|]; cbn [map app];
    try apply IH.
  constructor; [apply IH | exact Hlater].
Qed.

End Extraction.

Section ExtractionOfFile.

Variable U : Unicode.
Variable World : Type.
Variable pdf_pages : World -> pystr -> option (list RawPage).

(** X14: the extracted content has one entry for each page with text, numbered
    by the place of the page in the PDF, in increasing order; its text is
    the trimmed text of the page.  A page counts as having text even if
    the text is only white space. *)
Theorem extracted_pages (w : World) (p : pystr) (pages : list RawPage) :
  pdf_pages w p = Some pages ->
  (forall pc,
      In pc (extract_text_from_pdf U pdf_pages w p)
      <-> exists i page t,
            nth_error pages i = Some page
            /\ extract_text page = Some t /\ t <> []
            /\ pc = {| page_number := i + 1;
                       text := strip U t;
                       tables := extract_tables page |})
  /\ StronglySorted lt
       (map page_number (extract_text_from_pdf U pdf_pages w p))
  /\ length (extract_text_from_pdf U pdf_pages w p) <= length pages.
Proof.
  intros Hpages. unfold extract_text_from_pdf. rewrite Hpages.
  rewrite extract_fold. cbn [app]. unfold enumerate.
  split; [|split].
  - intros pc. rewrite in_page_entries. reflexivity.
  - apply page_entries_sorted.
  - clear Hpages. generalize 0.
    induction pages as [|page l IH]; intros k; [cbn; lia|].
    cbn [length seq combine flat_map]. rewrite length_app.
    specialize (IH (S k)).
    assert (length (page_entry U (k, page)) <= 1).
    { unfold page_entry. destruct (extract_text (snd (k, page)))
        as [[|? ?]|]; cbn; lia. }
    lia.
Qed.

End ExtractionOfFile.

Lemma extracted_pages_witness :
  demo_pages [] (lit "a.pdf")
  = Some [{| extract_text := Some (lit "Hello world");
             extract_tables := [] |}]
  /\ length (extract_text_from_pdf basic_latin demo_pages [] (lit "a.pdf"))
     <= 1.
Proof.
  assert (H : demo_pages [] (lit "a.pdf")
              = Some [{| extract_text := Some (lit "Hello world");
                         extract_tables := [] |}]) by reflexivity.
  split; [exact H|].
  exact (proj2 (proj2 (@extracted_pages basic_latin demo_world demo_pages
                         [] (lit "a.pdf") _ H))).
Defined.

(** ** Conversion of one file *)

Lemma blank_lines_add_nothing (U : Unicode) (text_lines all : list pystr)
  (idx : list nat) (d : Document) :
  Forall (fun l => strip U l = []) text_lines ->
  forE (process_line U all) (combine idx text_lines)
       {| doc := d; current_paragraph := None |}
  = ret {| doc := d; current_paragraph := None |}.
Proof.
  intros Hall. revert idx.
  induction Hall as [|l ls Hl _ IH]; intros [|i idx]; try reflexivity.
  cbn [combine forE]. unfold process_line at 1. rewrite Hl. cbn.
  apply IH.
Qed.

Lemma no_tables_at_all (content : list PageContent) :
  (forall pc, In pc content -> tables pc = []) ->
  all_raw_tables content = [].
Proof.
  unfold all_raw_tables. induction content as [|pc l IH]; intros H;
    [reflexivity|].
  cbn [flat_map]. rewrite (H pc) by now left. apply IH.
  intros pc' Hpc'. apply H. now right.
Qed.

Section ConversionFacts.

Variable U : Unicode.
Variable World : Type.
Variable pdf_pages : World -> pystr -> option (list RawPage).
Variable save : pystr -> Document -> World -> bool * World.
Variable path_stem : pystr -> pystr.
Variable path_join : pystr -> pystr -> pystr.
Variable output_folder : pystr.

Abbreviation extract' := (extract_text_from_pdf U pdf_pages).
Abbreviation convert' :=
  (convert_pdf_to_word U pdf_pages save path_stem path_join output_folder).
Abbreviation word_path_of p :=
  (path_join output_folder (path_stem p ++ lit ".docx")).

Lemma convert_after_build (p : pystr) (w : World) :
  extract' w p <> [] ->
  exists d,
    create_word_document U (extract' w p) = ret d
    /\ convert' p w
       = (if fst (save (word_path_of p) d w)
          then Some (word_path_of p) else None,
          snd (save (word_path_of p) d w)).
Proof.
  intros Hne. unfold convert_pdf_to_word.
  destruct (extract' w p) as [|pc content] eqn:E; [contradiction|].
  cbn [truthy negb].
  destruct (create_word_document_returns U (pc :: content)) as [d Hd].
  exists d. split; [exact Hd|]. rewrite Hd.
  change (ret d) with (@inr PyExc Document d).
  cbn iota. destruct (save (word_path_of p) d w) as [[|] w'];
    reflexivity.
Qed.


(** X16: a PDF whose pages hold only white space, and no table, is not a
    failure: the converter saves an empty document and reports the
    path. *)
Theorem blank_pdf_gives_empty_document (p : pystr) (w : World)
  (pages : list RawPage) :
  pdf_pages w p = Some pages ->
  (exists page c t, In page pages /\ extract_text page = Some (c :: t)) ->
  (forall page t,
      In page pages -> extract_text page = Some t -> strip U t = []) ->
  (forall page, In page pages -> extract_tables page = []) ->
  extract' w p <> []
  /\ create_word_document U (extract' w p) = ret []
  /\ convert' p w
     = (if fst (save (word_path_of p) [] w)
        then Some (word_path_of p) else None,
        snd (save (word_path_of p) [] w)).
Proof.
  intros Hpages (page & c & t & Hin & Htext) Hblank Hnotables.
  assert (Hcontent :
    forall pc, In pc (extract' w p) -> text pc = [] /\ tables pc = []).
  { intros pc Hpc. unfold extract_text_from_pdf in Hpc.
    rewrite Hpages, extract_fold in Hpc. cbn [app] in Hpc.
    unfold enumerate in Hpc.
    apply in_page_entries in Hpc as (i & pg & s & Hnth & Hs & _ & ->).
    apply nth_error_In in Hnth. cbn [text tables].
    split; [now apply (Hblank pg) | now apply Hnotables]. }
  assert (Hne : extract' w p <> []).
  { unfold extract_text_from_pdf. rewrite Hpages, extract_fold.
    cbn [app]. unfold enumerate.
    apply In_nth_error in Hin as (i & Hnth).
    intros Hnil.
    assert (Hmem : In {| page_number := 0 + i + 1;
                         text := strip U (c :: t);
                         tables := extract_tables page |}
                      (flat_map (page_entry U)
                         (combine (seq 0 (length pages)) pages))).
    { apply in_page_entries. exists i, page, (c :: t).
      repeat split; [exact Hnth | exact Htext | discriminate]. }
    rewrite Hnil in Hmem. contradiction. }
  assert (Hdoc : create_word_document U (extract' w p) = ret []).
  { destruct (create_word_document_blocks U (extract' w p))
      as (tb & Htb & _ & ->).
    assert (Hlines : Forall (fun l => strip U l = [])
                            (all_lines (extract' w p))).
    { apply Forall_forall. intros l Hl. unfold all_lines in Hl.
      apply in_flat_map in Hl as (pc & Hpc & Hl).
      destruct (Hcontent pc Hpc) as [Ht _]. rewrite Ht in Hl.
      cbn in Hl. destruct Hl as [<-|[]]. reflexivity. }
    assert (Htabs : all_raw_tables (extract' w p) = []).
    { apply no_tables_at_all. intros pc Hpc. now apply Hcontent. }
    rewrite Htabs. cbn [filter flat_map]. rewrite app_nil_r.
    unfold process_text_content, text_loop, enumerate in Htb.
    rewrite (@blank_lines_add_nothing U _ _ _ [] Hlines) in Htb.
    rewrite bind_ret in Htb. cbn [doc] in Htb.
    now injection Htb as <-. }
  split; [exact Hne|]. split; [exact Hdoc|].
  destruct (convert_after_build p w Hne) as (d & Hd & ->).
  rewrite Hdoc in Hd. now injection Hd as <-.
Qed.

End ConversionFacts.


Lemma blank_pdf_gives_empty_document_witness :
  convert_pdf_to_word basic_latin blank_pages demo_save demo_stem
    demo_join (lit "out") (lit "a.pdf") []
  = (Some (lit "out/a.docx"), [(lit "out/a.docx", [])]).
Proof.
  refine (proj2 (proj2 (@blank_pdf_gives_empty_document basic_latin
                          demo_world blank_pages demo_save demo_stem
                          demo_join (lit "out") (lit "a.pdf") []
                          [{| extract_text := Some (lit "  ");
                              extract_tables := [] |}]
                          eq_refl _ _ _))).
  - eexists _, _, _. split; [now left | reflexivity].
  - intros page t [<-|[]] H. injection H as <-. reflexivity.
  - intros page [<-|[]]. reflexivity.
Defined.

(** ** Counts and entries of a batch *)

Section BatchCounts.

Variable U : Unicode.
Variable World : Type.
Variable path_exists : World -> pystr -> bool.
Variable pdf_pages : World -> pystr -> option (list RawPage).
Variable save : pystr -> Document -> World -> bool * World.
Variable path_stem : pystr -> pystr.
Variable path_join : pystr -> pystr -> pystr.
Variable output_folder : pystr.

Abbreviation valid' := (valid_pdf U path_exists).
Abbreviation validate' := (validate_pdf_files U path_exists).
Abbreviation step' :=
  (convert_step U pdf_pages save path_stem path_join output_folder).
Abbreviation batch' :=
  (convert_all U path_exists pdf_pages save path_stem path_join
     output_folder).

Lemma step_counted (r : BatchResult) (w : World) (p : pystr) :
  counted r -> counted (fst (step' (r, w) p)).
Proof.
  intros (Hs & Hf & Hall). unfold convert_step.
  destruct (convert_pdf_to_word U pdf_pages save path_stem path_join
              output_folder p w) as [[[|c out]|] w'];
    cbn [fst]; unfold counted; cbn [successful failed files];
    rewrite !filter_app, !length_app; cbn [filter is_success status negb length];
    (split; [lia|]); (split; [lia|]);
    apply Forall_app; (split; [exact Hall|]);
    constructor; [|constructor| |constructor| |constructor];
    unfold entry_consistent; cbn [status word]; try reflexivity.
  exists (c :: out). split; [reflexivity | discriminate].
Qed.

Lemma run_counted (ps : list pystr) :
  forall (r : BatchResult) (w : World),
    counted r -> counted (fst (fold_left step' ps (r, w))).
Proof.
  induction ps as [|p ps IH]; intros r w Hr; [exact Hr|].
  cbn [fold_left]. pose proof (step_counted w p Hr) as H1.
  destruct (step' (r, w) p) as [r1 w1]. now apply IH.
Qed.

Lemma filter_idempotent {A} (f : A -> bool) (l : list A) :
  filter f (filter f l) = filter f l.
Proof.
  induction l as [|x l IH]; [reflexivity|]. cbn.
  destruct (f x) eqn:E; [cbn; rewrite E; now f_equal | exact IH].
Qed.

(** X17: the counts of a batch result are the numbers of its success and of
    its failure entries; a success entry carries a non-empty path and a
    failure entry none. *)
Theorem batch_counts_match_entries (pdf_files : list pystr) (w : World) :
  successful (fst (batch' pdf_files w))
  = N.of_nat (length (filter is_success
                        (files (fst (batch' pdf_files w)))))
  /\ failed (fst (batch' pdf_files w))
     = N.of_nat (length (filter (fun e => negb (is_success e))
                           (files (fst (batch' pdf_files w)))))
  /\ Forall entry_consistent (files (fst (batch' pdf_files w))).
Proof.
  change (counted (fst (batch' pdf_files w))).
  unfold convert_all.
  destruct (negb (truthy (validate' w pdf_files))).
  - repeat split. constructor.
  - apply run_counted. repeat split. constructor.
Qed.

(** X18: validation is idempotent, returns valid paths only, and can be done
    beforehand: the batch of the validated list is the batch of the
    list. *)
Theorem validated_batch (pdf_files : list pystr) (w : World) :
  validate' w (validate' w pdf_files) = validate' w pdf_files
  /\ Forall (fun p => valid' w p = true) (validate' w pdf_files)
  /\ batch' (validate' w pdf_files) w = batch' pdf_files w.
Proof.
  assert (Hidem : validate' w (validate' w pdf_files)
                  = validate' w pdf_files).
  { rewrite !validate_filter. apply filter_idempotent. }
  split; [exact Hidem|]. split.
  - rewrite validate_filter. apply Forall_forall. intros p Hp.
    now apply filter_In in Hp.
  - unfold convert_all. now rewrite Hidem.
Qed.

(** X19: a batch without a valid path converts nothing and writes nothing. *)
Theorem batch_without_valid_path (pdf_files : list pystr) (w : World) :
  (forall p, In p pdf_files -> valid' w p = false) ->
  batch' pdf_files w = (empty_result, w).
Proof.
  intros Hnone. unfold convert_all.
  rewrite validate_filter, filter_none by exact Hnone. reflexivity.
Qed.

End BatchCounts.

Lemma batch_without_valid_path_witness :
  demo_convert_all [lit "notes.txt"; lit "missing.pdf"] []
  = (empty_result, []).
Proof.
  apply (@batch_without_valid_path basic_latin demo_world demo_exists
           demo_pages demo_save demo_stem demo_join (lit "out")).
  intros p [<-|[<-|[]]]; reflexivity.
Defined.

(** ** Image placeholders *)

Section ImageFacts.

Variable U : Unicode.

Lemma detect_fold (items : list (nat * pystr)) (acc : list nat) :
  fold_left (fun image_positions (item : nat * pystr) =>
               let '(i, line) := item in
               let line_lower := strip U (str_lower U line) in
               let image_positions :=
                 if existsb (contains line_lower) image_keywords
                 then image_positions ++ [i]
                 else image_positions in
               if (length (strip U line) <? 50)
                  && existsb (contains line_lower) image_title_words
               then image_positions ++ [i]
               else image_positions)
            items acc
  = acc ++ flat_map (positions_of U) items.
Proof.
  revert acc. induction items as [|[i line] items IH]; intros acc.
  - cbn. now rewrite app_nil_r.
  - cbn [fold_left flat_map]. rewrite IH.
    unfold positions_of at 2, mentions_image, looks_like_image_title.
    cbn [fst snd].
    destruct (existsb _ image_keywords), (_ && _); cbn [app];
      rewrite <- ?app_assoc; reflexivity.
Qed.

Lemma positions_in_range (l : list pystr) :
  forall k i,
    In i (flat_map (positions_of U) (combine (seq k (length l)) l)) ->
    k <= i < k + length l.
Proof.
  induction l as [|line l IH]; intros k i; [contradiction|].
  cbn [length seq combine flat_map]. rewrite in_app_iff.
  intros [Hhead|Htail].
  - unfold positions_of in Hhead. cbn [fst snd] in Hhead.
    destruct (mentions_image U line), (looks_like_image_title U line);
      cbn in Hhead; intuition lia.
  - apply IH in Htail. lia.
Qed.

Lemma positions_count (l : list pystr) :
  forall k j line,
    nth_error l j = Some line ->
    count_occ Nat.eq_dec
      (flat_map (positions_of U) (combine (seq k (length l)) l)) (k + j)
    = Nat.b2n (mentions_image U line)
      + Nat.b2n (looks_like_image_title U line).
Proof.
  induction l as [|x l IH]; intros k j line Hnth; [now destruct j|].
  cbn [length seq combine flat_map]. rewrite count_occ_app.
  destruct j as [|j].
  - cbn in Hnth. injection Hnth as ->. rewrite Nat.add_0_r.
    assert (Htail :
      count_occ Nat.eq_dec
        (flat_map (positions_of U) (combine (seq (S k) (length l)) l)) k
      = 0).
    { apply count_occ_not_In. intros Hin.
      apply positions_in_range in Hin. lia. }
    rewrite Htail. unfold positions_of. cbn [fst snd].
    destruct (mentions_image U line), (looks_like_image_title U line);
      cbn [app Nat.b2n]; rewrite ?count_occ_cons_eq by reflexivity;
      reflexivity.
  - cbn in Hnth. replace (k + S j) with (S k + j) by lia.
    rewrite (IH (S k) j line Hnth).
    assert (Hhead :
      count_occ Nat.eq_dec (positions_of U (k, x)) (S k + j) = 0).
    { apply count_occ_not_In. unfold positions_of. cbn [fst snd].
      destruct (mentions_image U x), (looks_like_image_title U x);
        cbn; intuition lia. }
    rewrite Hhead. reflexivity.
Qed.

Lemma positions_sorted (l : list pystr) :
  forall k,
    StronglySorted le
      (flat_map (positions_of U) (combine (seq k (length l)) l)).
Proof.
  induction l as [|line l IH]; intros k; [constructor|].
  cbn [length seq combine flat_map].
  assert (Hlater :
    Forall (le k)
      (flat_map (positions_of U) (combine (seq (S k) (length l)) l))).
  { apply Forall_forall. intros i Hi. apply positions_in_range in Hi. lia. }
  unfold positions_of at 1. cbn [fst snd].
  destruct (mentions_image U line), (looks_like_image_title U line);
    cbn [app]; repeat (constructor; [|try (constructor; [lia|]); exact Hlater]);
    apply IH.
Qed.

End ImageFacts.

(** X20: the reported positions are line indices in non-decreasing order.  A
    line is reported once for each of the two tests it passes, so a short
    line that mentions an image or a logo is reported twice. *)
Theorem detect_image_placeholders_positions (U : Unicode)
  (text_lines : list pystr) :
  Forall (fun i => i < length text_lines)
         (detect_image_placeholders U text_lines)
  /\ StronglySorted le (detect_image_placeholders U text_lines)
  /\ (forall i line,
         nth_error text_lines i = Some line ->
         count_occ Nat.eq_dec (detect_image_placeholders U text_lines) i
         = Nat.b2n (mentions_image U line)
           + Nat.b2n (looks_like_image_title U line))
  /\ (forall i line,
         nth_error text_lines i = Some line ->
         length (strip U line) < 50 ->
         contains (strip U (str_lower U line)) (lit "image") = true
         \/ contains (strip U (str_lower U line)) (lit "logo") = true ->
         count_occ Nat.eq_dec (detect_image_placeholders U text_lines) i
         = 2).
Proof.
  unfold detect_image_placeholders. rewrite detect_fold. cbn [app].
  unfold enumerate.
  assert (Hcount : forall i line,
    nth_error text_lines i = Some line ->
    count_occ Nat.eq_dec
      (flat_map (positions_of U)
         (combine (seq 0 (length text_lines)) text_lines)) i
    = Nat.b2n (mentions_image U line)
      + Nat.b2n (looks_like_image_title U line)).
  { intros i line Hnth. apply (positions_count U text_lines 0 i Hnth). }
  split; [|split; [|split]].
  - apply Forall_forall. intros i Hi. apply positions_in_range in Hi. lia.
  - apply positions_sorted.
  - exact Hcount.
  - intros i line Hnth Hshort Hword. rewrite (Hcount i line Hnth).
    assert (Hm : mentions_image U line = true).
    { unfold mentions_image. apply existsb_exists.
      destruct Hword as [H|H]; eexists; (split; [|exact H]);
        unfold image_keywords; cbn [map In]; auto. }
    assert (Ht : looks_like_image_title U line = true).
    { unfold looks_like_image_title. apply andb_true_iff. split.
      - now apply Nat.ltb_lt.
      - apply existsb_exists.
        destruct Hword as [H|H]; eexists; (split; [|exact H]);
          unfold image_title_words; cbn [map In]; auto. }
    now rewrite Hm, Ht.
Qed.

Lemma detect_image_placeholders_positions_witness :
  nth_error logo_lines 1 = Some (lit "  Company Logo ")
  /\ count_occ Nat.eq_dec
       (detect_image_placeholders basic_latin logo_lines) 1 = 2.
Proof.
  assert (H : nth_error logo_lines 1 = Some (lit "  Company Logo "))
    by reflexivity.
  split; [exact H|].
  apply (proj2 (proj2 (proj2 (detect_image_placeholders_positions
                                basic_latin logo_lines)))
           1 (lit "  Company Logo ") H).
  - vm_compute. lia.
  - right. vm_compute. reflexivity.
Defined.

(** ** The open paragraph before a blank line *)

Section Eager.

Variable U : Unicode.
Variable text_lines : list pystr.

Lemma next_line_blank (i : nat) :
  next_line_of U text_lines i = [] ->
  forall raw, nth_error text_lines (i + 1) = Some raw -> strip U raw = [].
Proof.
  unfold next_line_of. intros H raw Hnth.
  assert (Hlt : i + 1 < length text_lines)
    by (apply nth_error_Some; congruence).
  apply Nat.ltb_lt in Hlt. rewrite Hlt in H.
  assert (Hn : nth (i + 1) text_lines [] = raw)
    by now apply nth_error_nth.
  now rewrite Hn in H.
Qed.

Lemma agree_refl (k : nat) (st : LoopState) : agree_at U text_lines k st st.
Proof. split; [reflexivity | now left]. Qed.

Lemma append_text_agree (i : nat) (line : pystr) (st : LoopState) :
  exists eager st',
    append_text_eager U text_lines i line st = ret eager
    /\ append_text U text_lines i line st = ret st'
    /\ agree_at U text_lines (i + 1) eager st'.
Proof.
  unfold append_text_eager, append_text.
  destruct (match current_paragraph st with
            | Some p => (doc st, p)
            | None => add_paragraph (doc st)
            end) as [d p].
  destruct (ends_sentence line).
  - unfold next_starts_paragraph_eager.
    destruct (next_line_of U text_lines i) as [|c s] eqn:Hnext.
    + cbn [truthy]. rewrite next_starts_paragraph_nil, !bind_ret.
      eexists _, _. split; [reflexivity|]. split; [reflexivity|].
      split; [reflexivity|]. right. split; [reflexivity|].
      now apply next_line_blank.
    + cbn [truthy].
      destruct (next_starts_paragraph_returns U (c :: s)) as [b ->].
      rewrite !bind_ret. destruct b; eexists _, _;
        (split; [reflexivity|]); (split; [reflexivity|]); apply agree_refl.
  - eexists _, _. split; [reflexivity|]. split; [reflexivity|].
    apply agree_refl.
Qed.

Lemma process_line_agree (i : nat) (raw : pystr) (eager st : LoopState) :
  nth_error text_lines i = Some raw ->
  agree_at U text_lines i eager st ->
  exists eager' st',
    process_line_eager U text_lines eager (i, raw) = ret eager'
    /\ process_line U text_lines st (i, raw) = ret st'
    /\ agree_at U text_lines (i + 1) eager' st'.
Proof.
  intros Hnth [Hdoc Hcur].
  destruct eager as [de ce], st as [ds cs]. cbn [doc current_paragraph] in *.
  subst de. destruct Hcur as [-> | [-> Hblank]].
  - (* the two loops are in the same state *)
    unfold process_line_eager, process_line.
    destruct (strip U raw) as [|x s] eqn:E.
    + cbn [truthy negb current_paragraph].
      destruct cs; eexists _, _; (split; [reflexivity|]);
        (split; [reflexivity|]); apply agree_refl.
    + cbn [truthy negb].
      destruct (_ && _).
      { eexists _, _. split; [reflexivity|]. split; [reflexivity|].
        apply agree_refl. }
      destruct (is_main_title_returns U (x :: s)) as [t ->].
      rewrite !bind_ret. destruct t.
      { eexists _, _. split; [reflexivity|]. split; [reflexivity|].
        apply agree_refl. }
      destruct (is_subtitle_returns U (x :: s)) as [u ->].
      rewrite !bind_ret. destruct u.
      { eexists _, _. split; [reflexivity|]. split; [reflexivity|].
        apply agree_refl. }
      destruct (is_bullet_point (x :: s)).
      { eexists _, _. split; [reflexivity|]. split; [reflexivity|].
        apply agree_refl. }
      apply append_text_agree.
  - (* the eager loop has closed the paragraph; the line is blank *)
    unfold process_line_eager, process_line.
    rewrite (Hblank raw Hnth). cbn [truthy negb current_paragraph].
    destruct cs; eexists _, _; (split; [reflexivity|]);
      (split; [reflexivity|]); split; try reflexivity; now left.
Qed.

Lemma loops_agree (rest : list pystr) :
  forall (pre : list pystr) (eager st : LoopState),
    text_lines = pre ++ rest ->
    agree_at U text_lines (length pre) eager st ->
    exists eager' st',
      forE (process_line_eager U text_lines)
           (combine (seq (length pre) (length rest)) rest) eager
      = ret eager'
      /\ forE (process_line U text_lines)
              (combine (seq (length pre) (length rest)) rest) st
         = ret st'
      /\ doc eager' = doc st'.
Proof.
  induction rest as [|raw rest IH]; intros pre eager st Hsplit Hagree.
  - exists eager, st. repeat split. apply Hagree.
  - cbn [length seq combine forE].
    assert (Hnth : nth_error text_lines (length pre) = Some raw).
    { rewrite Hsplit, nth_error_app2 by lia. now rewrite Nat.sub_diag. }
    destruct (process_line_agree Hnth Hagree)
      as (e1 & s1 & He1 & Hs1 & Hagree1).
    rewrite He1, Hs1, !bind_ret.
    replace (S (length pre)) with (length (pre ++ [raw]))
      by (rewrite length_app; cbn; lia).
    apply IH.
    + now rewrite <- app_assoc.
    + rewrite length_app. exact Hagree1.
Qed.

End Eager.

(** X21: the paragraph that the loop leaves open before a blank line, or at
    the end of the lines, does not show in the document: a loop that
    closes it at once, as the operand [not next_line] of the condition
    suggests, builds the same document. *)
Theorem open_paragraph_never_shows (U : Unicode) (d : Document)
  (text_lines : list pystr) :
  process_text_content_eager U d text_lines
  = process_text_content U d text_lines.
Proof.
  unfold process_text_content_eager, process_text_content, text_loop,
    enumerate.
  destruct (@loops_agree U text_lines text_lines []
              {| doc := d; current_paragraph := None |}
              {| doc := d; current_paragraph := None |}
              eq_refl (agree_refl U text_lines 0 _))
    as (e & s & He & Hs & Hdoc).
  cbn [length] in He, Hs. rewrite He, Hs, !bind_ret. now rewrite Hdoc.
Qed.

Lemma process_text_content_blocks_witness :
  exists added,
    process_text_content basic_latin [] [sentence_line; continues_line]
    = ret ([] ++ added)
    /\ Forall (block_from_lines basic_latin
                 [sentence_line; continues_line]) added.
Proof.
  destruct (process_text_content_blocks basic_latin []
              [sentence_line; continues_line]) as (added & H1 & H2 & _).
  exists added. split; [exact H1 | exact H2].
Defined.
